(** * Content Cloud access-token issuer: [generateAccessToken]

    A shallow embedding of the token issuer of the Content Cloud client
    (the [generateAccessToken] function and the two string enums it
    accepts), together with the properties of the issued token: secret
    resolution and parsing, audience, scope construction, subject,
    algorithm selection by byte inspection, key identifier and expiry.

    JavaScript values are modelled as follows.
    - [string | undefined] is [option string]; an optional array is an
      [option (list _)].  Truthiness ([if (x)], [!x]) and nullish
      coalescing ([??]) are written out, since they differ on the empty
      string.
    - [process.env] is a finite map from variable names to strings.
    - A [Buffer] is a [list byte].
    - [throw] is the [Throw] completion of a small run monad that also
      records the calls made to the platform and to the signing library, in
      program order.
    - Numbers that count seconds are integers ([Z]).

    The development also covers the issuer of the first client, the domain
    keys, query strings, request URLs and constructor of the REST client,
    and the proxy, response reading and field selection of the GraphQL
    client. *)

From Stdlib Require Import Strings.Ascii Strings.String Strings.Byte ZArith.
From stdpp Require Import gmap strings list fin_maps.
From Stdlib Require Import DecimalString.

Local Open Scope string_scope.
Local Open Scope list_scope.
Local Open Scope Z_scope.

(** ** JavaScript values *)

(** [a ?? b]: the left operand unless it is [undefined]. *)
Definition nullish {A} (a b : option A) : option A :=
  match a with
  | Some x => Some x
  | None => b
  end.

Infix "??" := nullish (at level 60, right associativity).

(** Truthiness of a [string | undefined] value: [undefined] and the empty
    string are falsy.  Returns the value when it is truthy. *)
Definition truthy (v : option string) : option string :=
  match v with
  | Some (String c s) => Some (String c s)
  | _ => None
  end.

(** String conversion inside a template literal or a [URL] constructor. *)
Definition toString (v : option string) : string :=
  match v with
  | Some s => s
  | None => "undefined"
  end.

(** [s.split(sep)] for a one-character separator: the segments between the
    separators, always at least one. *)
Fixpoint split (sep : ascii) (s : string) : list string :=
  match s with
  | EmptyString => [EmptyString]
  | String c rest =>
      if Ascii.eqb c sep then EmptyString :: split sep rest
      else match split sep rest with
           | seg :: segs => String c seg :: segs
           | [] => [String c EmptyString]
           end
  end.

(** ** The enums *)

Module ContentCloudPermission.
Inductive t :=
| CONTENT_READ
| CONTENT_TYPE_READ
| ASSET_READ_FILE
| USER_DATA_READ
| USER_DATA_WRITE
| EXTERNAL_LINK_READ
| EXTERNAL_LINK_WRITE
| PREVIEW
| DEVELOPER
| SPACE_READ.

Definition value (p : t) : string :=
  match p with
  | CONTENT_READ => "permission:content:read"
  | CONTENT_TYPE_READ => "permission:content-type:read"
  | ASSET_READ_FILE => "permission:asset:read:file"
  | USER_DATA_READ => "permission:user-data:read"
  | USER_DATA_WRITE => "permission:user-data:write"
  | EXTERNAL_LINK_READ => "permission:external-link:read"
  | EXTERNAL_LINK_WRITE => "permission:external-link:write"
  | PREVIEW => "permission:preview"
  | DEVELOPER => "permission:developer"
  | SPACE_READ => "permission:space:read"
  end.
End ContentCloudPermission.

Module ContentCloudService.
Inductive t :=
| LIVE
| CDN
| ASSETS
| DEV
| PREVIEW
| ASSET_PREVIEWS
| PUBLISHER.

Definition value (s : t) : string :=
  match s with
  | LIVE => "service:live"
  | CDN => "service:cdn"
  | ASSETS => "service:assets"
  | DEV => "service:dev"
  | PREVIEW => "service:preview"
  | ASSET_PREVIEWS => "service:asset-previews"
  | PUBLISHER => "service:publisher"
  end.
End ContentCloudService.

(** ** The request and the token *)

(** The JWT format expected by the Content Cloud.  [baseUrl], [services]
    and [permissions] are guarded at run time by the issuer ([??], [if]),
    so they are optional here as well. *)
Record ContentCloudJwtPayload := {
  baseUrl : option string;
  services : option (list ContentCloudService.t);
  permissions : option (list ContentCloudPermission.t);
  spaceId : option string;
  environmentIds : option (list string);
  userId : option string;
  userDataContentTypes : option (list string);
}.

(** The claims the issuer assembles before signing. *)
Record ExternalPayload := {
  aud : string;
  iss : string;
  scope : list string;
  sub : option string;
}.

Inductive Algorithm := RS256 | HS256.

(** The key handed to the signer: text ([secretBinary.toString("utf8")]) or
    the buffer itself. *)
Inductive SecretOrPrivateKey :=
| KeyString (text : string)
| KeyBuffer (bytes : list byte).

Record SignOptions := {
  algorithm : Algorithm;
  keyid : string;
  expiresIn : Z;
}.

Record JwtHeader := {
  alg : Algorithm;
  typ : string;
  kid : string;
}.

(** The decoded view of the compact token: header, claims and signature. *)
Record Token := {
  header : JwtHeader;
  claims : ExternalPayload;
  iat : Z;
  exp : Z;
  signature : string;
}.

(** ** Errors, calls and runs *)

Inductive JsError :=
| Error (message : string)
| TypeErrorInvalidURL (input : string)
| JsonWebTokenError.

Definition MissingSecretError : JsError :=
  Error "Missing clientSecret to sign access token.".

Definition MalformedSecretError : JsError :=
  Error "client secret uses an unsupported format.".

(** The calls that leave the issuer, in the order they are made. *)
Inductive Call :=
| CallNewURL (input : string)
| CallBufferFromBase64 (input : string)
| CallSign (payload : ExternalPayload) (key : SecretOrPrivateKey)
    (options : SignOptions).

Inductive Completion (A : Type) :=
| Return (a : A)
| Throw (e : JsError).

Arguments Return {A} a.
Arguments Throw {A} e.

Record Run (A : Type) := mkRun {
  calls : list Call;
  completion : Completion A;
}.

Arguments mkRun {A} calls completion.
Arguments calls {A} r.
Arguments completion {A} r.

Definition ret {A} (a : A) : Run A := mkRun [] (Return a).

Definition throw {A} (e : JsError) : Run A := mkRun [] (Throw e).

Definition bind {A B} (m : Run A) (k : A -> Run B) : Run B :=
  match completion m with
  | Return a => mkRun (calls m ++ calls (k a)) (completion (k a))
  | Throw e => mkRun (calls m) (Throw e)
  end.

Notation "x <- m ;; k" := (bind m (fun x => k))
  (at level 62, m at next level, right associativity,
   format "'[v' x  <-  m  ;;  '/' k ']'").

(** ** The platform *)

(** What the issuer consumes from its platform and from the signing
    library: Node's base64 decoder ([Buffer.from(s, "base64")], which never
    throws on a string), UTF-8 decoding of a buffer
    ([buf.toString("utf8")]), the host name of a parsed absolute URL
    ([new URL(s).hostname], [None] when the constructor throws its
    [TypeError]), and the signature of the encoded header and claims under a
    key ([None] when the signing library rejects the key or the request).
    The one law is the URL parser's: the text [undefined] has no scheme, so
    it does not parse without a base. *)
Class Runtime := {
  base64_decode : string -> list byte;
  utf8_toString : list byte -> string;
  url_hostname : string -> option string;
  jws_sign :
    JwtHeader -> ExternalPayload -> Z -> Z -> SecretOrPrivateKey ->
    option string;
  url_hostname_undefined : url_hostname "undefined" = None;
}.

Section Issuer.
Context `{R : Runtime}.

(** [new URL(input).hostname] *)
Definition newURL_hostname (input : string) : Run string :=
  mkRun [CallNewURL input]
    (match url_hostname input with
     | Some h => Return h
     | None => Throw (TypeErrorInvalidURL input)
     end).

(** [Buffer.from(input, "base64")] *)
Definition bufferFromBase64 (input : string) : Run (list byte) :=
  mkRun [CallBufferFromBase64 input] (Return (base64_decode input)).

(** Modelled from the spec: the signer, [jsonwebtoken.sign(payload, key,
    options)], an external library.  The header carries the requested
    algorithm and key identifier, [iat] is the current time in seconds,
    [exp] is [iat] plus [expiresIn], and the claims are the payload's own;
    the signature and the acceptance of the key are the platform's. *)
Definition jsonwebtoken_sign (now : Z) (payload : ExternalPayload)
    (key : SecretOrPrivateKey) (options : SignOptions) : Run Token :=
  let header :=
    {| alg := algorithm options; typ := "JWT"; kid := keyid options |} in
  let iat := now in
  let exp := iat + expiresIn options in
  mkRun [CallSign payload key options]
    (match jws_sign header payload iat exp key with
     | Some sig =>
         Return {| header := header; claims := payload;
                   iat := iat; exp := exp; signature := sig |}
     | None => Throw JsonWebTokenError
     end).

(** [externalPayload.scope.push(...items)] *)
Definition scope_push (p : ExternalPayload) (items : list string)
    : ExternalPayload :=
  {| aud := aud p; iss := iss p; scope := scope p ++ items; sub := sub p |}.

(** [externalPayload.sub = userId] *)
Definition set_sub (p : ExternalPayload) (userId : string)
    : ExternalPayload :=
  {| aud := aud p; iss := iss p; scope := scope p; sub := Some userId |}.

(** [buf.at(i) === b] for an index [i] from the start: past the end [at]
    gives [undefined], which is no byte. *)
Definition at_is (buf : list byte) (i : nat) (b : byte) : bool :=
  match buf !! i with
  | Some x => Byte.eqb x b
  | None => false
  end.

(** The issuer.  [env] is [process.env] and [now] the clock in seconds at
    the time of the call; an omitted [ttlInSeconds] or [clientSecret] is
    [None]. *)
Definition generateAccessToken (env : gmap string string) (now : Z)
    (payload : ContentCloudJwtPayload) (ttlInSeconds : option Z)
    (clientSecret : option string) : Run Token :=
  let ttlInSeconds := default 3600 ttlInSeconds in
  let clientSecret :=
    match truthy clientSecret with
    | Some s => Some s
    | None => env !! "CC_CLIENT_SECRET"
    end in
  match truthy clientSecret with
  | None => throw MissingSecretError
  | Some clientSecret =>
      let parts := split ":" clientSecret in
      match truthy (parts !! 0%nat), truthy (parts !! 1%nat),
            truthy (parts !! 2%nat) with
      | Some clientId, Some issuerBase64, Some secretBase64 =>
          let baseUrl :=
            baseUrl payload ?? env !! "CC_SATELLITE_BASE_URL"
                            ?? env !! "CC_BASE_URL" in
          hostname <- newURL_hostname (toString baseUrl) ;;
          issuer <- bufferFromBase64 issuerBase64 ;;
          let externalPayload :=
            {| aud := "https://" +:+ hostname;
               iss := utf8_toString issuer;
               scope := [];
               sub := None |} in
          let externalPayload :=
            match permissions payload with
            | Some ps =>
                scope_push externalPayload
                  (map ContentCloudPermission.value ps)
            | None => externalPayload
            end in
          let externalPayload :=
            match services payload with
            | Some ss =>
                scope_push externalPayload
                  (map ContentCloudService.value ss)
            | None => externalPayload
            end in
          let externalPayload :=
            scope_push externalPayload
              ["space:" +:+
                 toString (spaceId payload ?? env !! "CC_SPACE_ID")] in
          let externalPayload :=
            match environmentIds payload with
            | Some ids =>
                scope_push externalPayload
                  (map (fun envId => "environment:" +:+ envId) ids)
            | None =>
                match truthy (env !! "CC_ENVIRONMENT_ID") with
                | Some envId =>
                    scope_push externalPayload ["environment:" +:+ envId]
                | None => scope_push externalPayload ["environment:*"]
                end
            end in
          let externalPayload :=
            match userDataContentTypes payload with
            | Some cts =>
                scope_push externalPayload
                  (map (fun ct => "content-user-data:" +:+ ct) cts)
            | None => externalPayload
            end in
          let externalPayload :=
            match truthy (userId payload) with
            | Some uid => set_sub externalPayload uid
            | None => externalPayload
            end in
          secretBinary <- bufferFromBase64 secretBase64 ;;
          (* Starts with ----- *)
          let asymmetric :=
            at_is secretBinary 0 x2d &&
            at_is secretBinary 1 x2d &&
            at_is secretBinary 2 x2d &&
            at_is secretBinary 3 x2d &&
            at_is secretBinary 4 x2d in
          jsonwebtoken_sign now externalPayload
            (if asymmetric then KeyString (utf8_toString secretBinary)
             else KeyBuffer secretBinary)
            {| algorithm := if asymmetric then RS256 else HS256;
               keyid := "client:" +:+ clientId +:+ ":0";
               expiresIn := ttlInSeconds |}
      | _, _, _ => throw MalformedSecretError
      end
  end.

End Issuer.

(** ** A reference platform

    An executable instance of [Runtime], used to run the issuer on concrete
    requests.  The base64 decoder follows Node's: both alphabets are
    accepted, characters outside them are skipped, and decoding stops at the
    first [=].  Text decoding is the identity on bytes, which is UTF-8
    decoding of well-formed input when strings are read as UTF-8.  The host
    name is that of [scheme://userinfo@host:port/path?query#fragment] for a
    lower-case ASCII host.  The signer accepts every key and returns a
    fixed signature: no property below looks at the signature. *)
Module Reference.

Definition unbase64 (c : ascii) : option N :=
  let n := N_of_ascii c in
  if (65 <=? n)%N && (n <=? 90)%N then Some (n - 65)%N
  else if (97 <=? n)%N && (n <=? 122)%N then Some (n - 71)%N
  else if (48 <=? n)%N && (n <=? 57)%N then Some (n + 4)%N
  else if (n =? 43)%N || (n =? 45)%N then Some 62%N
  else if (n =? 47)%N || (n =? 95)%N then Some 63%N
  else None.

Fixpoint sextets (s : string) : list N :=
  match s with
  | EmptyString => []
  | String c rest =>
      if Ascii.eqb c "=" then []
      else match unbase64 c with
           | Some n => n :: sextets rest
           | None => sextets rest
           end
  end.

Definition octet (n : N) : byte :=
  default x00 (Byte.of_N (n mod 256)%N).

Fixpoint octets (l : list N) : list byte :=
  match l with
  | a :: b :: c :: d :: rest =>
      octet (N.lor (N.shiftl a 2) (N.shiftr b 4))
      :: octet (N.lor (N.shiftl (N.land b 15) 4) (N.shiftr c 2))
      :: octet (N.lor (N.shiftl (N.land c 3) 6) d)
      :: octets rest
  | [a; b; c] =>
      [octet (N.lor (N.shiftl a 2) (N.shiftr b 4));
       octet (N.lor (N.shiftl (N.land b 15) 4) (N.shiftr c 2))]
  | [a; b] => [octet (N.lor (N.shiftl a 2) (N.shiftr b 4))]
  | _ => []
  end.

Definition decode (s : string) : list byte := octets (sextets s).

Definition text (b : list byte) : string :=
  string_of_list_byte b.

(** The text after [scheme://], when [s] starts with a scheme. *)
Fixpoint after_scheme (s : string) : option string :=
  match s with
  | String ":" (String "/" (String "/" rest)) => Some rest
  | String c rest =>
      let n := N_of_ascii c in
      if (97 <=? n)%N && (n <=? 122)%N || (48 <=? n)%N && (n <=? 57)%N
         || (n =? 43)%N || (n =? 45)%N || (n =? 46)%N
      then after_scheme rest
      else None
  | EmptyString => None
  end.

(** The prefix of [s] before the first character that satisfies [stop]. *)
Fixpoint take_until (stop : ascii -> bool) (s : string) : string :=
  match s with
  | String c rest =>
      if stop c then EmptyString else String c (take_until stop rest)
  | EmptyString => EmptyString
  end.

(** The text after the last [@] of [s], or [s] when it has none. *)
Fixpoint after_userinfo (s : string) : string :=
  match s with
  | String c rest =>
      let tail := after_userinfo rest in
      if Ascii.eqb c "@" then tail
      else if String.eqb tail rest then s else tail
  | EmptyString => EmptyString
  end.

Definition hostname (s : string) : option string :=
  match after_scheme s with
  | Some rest =>
      let authority :=
        take_until
          (fun c => Ascii.eqb c "/" || Ascii.eqb c "?" || Ascii.eqb c "#")
          rest in
      let host :=
        take_until (fun c => Ascii.eqb c ":") (after_userinfo authority) in
      truthy (Some host)
  | None => None
  end.

Definition sign (h : JwtHeader) (p : ExternalPayload) (iat exp : Z)
    (key : SecretOrPrivateKey) : option string :=
  Some "c2lnbmF0dXJl".

#[export] Instance runtime : Runtime := {|
  base64_decode := decode;
  utf8_toString := text;
  url_hostname := hostname;
  jws_sign := sign;
  url_hostname_undefined := eq_refl;
|}.

End Reference.

(** ** What the issuer resolves before it signs *)

(** The client secret after the fallback to [CC_CLIENT_SECRET]; [None] when
    it is missing. *)
Definition resolveClientSecret (env : gmap string string)
    (clientSecret : option string) : option string :=
  truthy (match truthy clientSecret with
          | Some s => Some s
          | None => env !! "CC_CLIENT_SECRET"
          end).

(** The first three colon-delimited segments of the secret, when each is
    there and not empty. *)
Definition credentialOf (secret : string)
    : option (string * string * string) :=
  let parts := split ":" secret in
  match truthy (parts !! 0%nat), truthy (parts !! 1%nat),
        truthy (parts !! 2%nat) with
  | Some clientId, Some issuerBase64, Some secretBase64 =>
      Some (clientId, issuerBase64, secretBase64)
  | _, _, _ => None
  end.

(** The base URL after the fallbacks; [None] when there is none. *)
Definition resolveBaseUrl (env : gmap string string)
    (payload : ContentCloudJwtPayload) : option string :=
  baseUrl payload ?? env !! "CC_SATELLITE_BASE_URL" ?? env !! "CC_BASE_URL".

(** The environment entries of the scope. *)
Definition environmentScope (env : gmap string string)
    (payload : ContentCloudJwtPayload) : list string :=
  match environmentIds payload with
  | Some ids => map (fun envId => "environment:" +:+ envId) ids
  | None =>
      match truthy (env !! "CC_ENVIRONMENT_ID") with
      | Some envId => ["environment:" +:+ envId]
      | None => ["environment:*"]
      end
  end.

(** The scope in the order it is built. *)
Definition scopeOf (env : gmap string string)
    (payload : ContentCloudJwtPayload) : list string :=
  map ContentCloudPermission.value (default [] (permissions payload))
  ++ map ContentCloudService.value (default [] (services payload))
  ++ ["space:" +:+ toString (spaceId payload ?? env !! "CC_SPACE_ID")]
  ++ environmentScope env payload
  ++ map (fun ct => "content-user-data:" +:+ ct)
       (default [] (userDataContentTypes payload)).

(** A scope entry that names a space. *)
Definition isSpaceEntry (entry : string) : bool :=
  String.prefix "space:" entry.

(** The byte test of the issuer: the buffer starts with [-----]. *)
Definition asymmetricKey (secretBinary : list byte) : bool :=
  at_is secretBinary 0 x2d &&
  at_is secretBinary 1 x2d &&
  at_is secretBinary 2 x2d &&
  at_is secretBinary 3 x2d &&
  at_is secretBinary 4 x2d.

Section Issued.
Context `{R : Runtime}.

(** The claims handed to the signer for a host name and an issuer. *)
Definition claimsOf (env : gmap string string)
    (payload : ContentCloudJwtPayload) (hostname issuerBase64 : string)
    : ExternalPayload :=
  {| aud := "https://" +:+ hostname;
     iss := utf8_toString (base64_decode issuerBase64);
     scope := scopeOf env payload;
     sub := truthy (userId payload) |}.

Definition keyOf (secretBase64 : string) : SecretOrPrivateKey :=
  let secretBinary := base64_decode secretBase64 in
  if asymmetricKey secretBinary then KeyString (utf8_toString secretBinary)
  else KeyBuffer secretBinary.

Definition optionsOf (clientId secretBase64 : string)
    (ttlInSeconds : option Z) : SignOptions :=
  {| algorithm :=
       if asymmetricKey (base64_decode secretBase64) then RS256 else HS256;
     keyid := "client:" +:+ clientId +:+ ":0";
     expiresIn := default 3600 ttlInSeconds |}.

(** The run of the issuer, case by case. *)
Definition issued (env : gmap string string) (now : Z)
    (payload : ContentCloudJwtPayload) (ttlInSeconds : option Z)
    (clientSecret : option string) : Run Token :=
  match resolveClientSecret env clientSecret with
  | None => mkRun [] (Throw MissingSecretError)
  | Some secret =>
      match credentialOf secret with
      | None => mkRun [] (Throw MalformedSecretError)
      | Some (clientId, issuerBase64, secretBase64) =>
          let url := toString (resolveBaseUrl env payload) in
          match url_hostname url with
          | None => mkRun [CallNewURL url] (Throw (TypeErrorInvalidURL url))
          | Some hostname =>
              let p := claimsOf env payload hostname issuerBase64 in
              let key := keyOf secretBase64 in
              let options := optionsOf clientId secretBase64 ttlInSeconds in
              let header :=
                {| alg := algorithm options; typ := "JWT";
                   kid := keyid options |} in
              mkRun
                [CallNewURL url; CallBufferFromBase64 issuerBase64;
                 CallBufferFromBase64 secretBase64; CallSign p key options]
                (match
                   jws_sign header p now (now + expiresIn options) key
                 with
                 | Some sig =>
                     Return {| header := header; claims := p; iat := now;
                               exp := now + expiresIn options;
                               signature := sig |}
                 | None => Throw JsonWebTokenError
                 end)
          end
      end
  end.

End Issued.

(** ** Sample requests, run on the reference platform *)

Module Sample.

Definition env : gmap string string := ∅.

Definition now : Z := 1700000000.

(** A full request; the base URL has a port, a path and a query. *)
Definition request : ContentCloudJwtPayload :=
  {| baseUrl := Some "https://cloud.example.com:8443/spaces/sp1?draft=1";
     services := Some [ContentCloudService.CDN];
     permissions := Some [ContentCloudPermission.CONTENT_READ];
     spaceId := Some "sp1";
     environmentIds := Some ["env1"; "env2"];
     userId := Some "auth0:123456";
     userDataContentTypes := Some ["*"] |}.

(** Client [abc], issuer [iss], symmetric key [secret]. *)
Definition clientSecret : string := "abc:aXNz:c2VjcmV0".

(** Client [abc], issuer [iss], key material [-----BEGIN]. *)
Definition pemSecret : string := "abc:aXNz:LS0tLS1CRUdJTg==".

Definition entries : list string :=
  ["permission:content:read"; "service:cdn"; "space:sp1";
   "environment:env1"; "environment:env2"; "content-user-data:*"].

Definition token : Token :=
  {| header := {| alg := HS256; typ := "JWT"; kid := "client:abc:0" |};
     claims := {| aud := "https://cloud.example.com"; iss := "iss";
                  scope := entries; sub := Some "auth0:123456" |};
     iat := 1700000000;
     exp := 1700003600;
     signature := "c2lnbmF0dXJl" |}.

Definition pemToken : Token :=
  {| header := {| alg := RS256; typ := "JWT"; kid := "client:abc:0" |};
     claims := {| aud := "https://cloud.example.com"; iss := "iss";
                  scope := entries; sub := Some "auth0:123456" |};
     iat := 1700000000;
     exp := 1700000060;
     signature := "c2lnbmF0dXJl" |}.

(** Neither a space id nor environment ids, and no base URL. *)
Definition bare : ContentCloudJwtPayload :=
  {| baseUrl := None;
     services := Some [];
     permissions := Some [];
     spaceId := None;
     environmentIds := None;
     userId := None;
     userDataContentTypes := None |}.

(** The full request without a space id and without environment ids. *)
Definition unscoped : ContentCloudJwtPayload :=
  {| baseUrl := baseUrl request;
     services := services request;
     permissions := permissions request;
     spaceId := None;
     environmentIds := None;
     userId := userId request;
     userDataContentTypes := userDataContentTypes request |}.

(** The full request with an empty user id. *)
Definition anonymous : ContentCloudJwtPayload :=
  {| baseUrl := baseUrl request;
     services := services request;
     permissions := permissions request;
     spaceId := spaceId request;
     environmentIds := environmentIds request;
     userId := Some EmptyString;
     userDataContentTypes := userDataContentTypes request |}.

(** The full request with an empty list of environment ids. *)
Definition noEnvironments : ContentCloudJwtPayload :=
  {| baseUrl := baseUrl request;
     services := services request;
     permissions := permissions request;
     spaceId := spaceId request;
     environmentIds := Some [];
     userId := userId request;
     userDataContentTypes := userDataContentTypes request |}.

(** The client secret with a fourth segment. *)
Definition longSecret : string := "abc:aXNz:c2VjcmV0:extra".

Definition run (payload : ContentCloudJwtPayload) (ttlInSeconds : option Z)
    (secret : option string) : Run Token :=
  @generateAccessToken Reference.runtime env now payload ttlInSeconds
    secret.

End Sample.

(** ** The issuer of the first client

    [generateAccessToken] of [content-cloud-authentication.ts]: the secret
    is [clientId=secret], the request's fields become claims of the token,
    and the issue and expiry times are computed by the issuer itself before
    it calls the signer with the secret as key. *)
Module Legacy.

(** The argument of the issuer: the payload without [clientId], with
    [spaceId] and [environmentIds] optional. *)
Module Properties.
Record t := {
  services : list ContentCloudService.t;
  permissions : list ContentCloudPermission.t;
  spaceId : option string;
  environmentIds : option (list string);
  userId : option string;
  userDataContentTypes : option (list string);
}.
End Properties.

(** The object handed to the signer: the payload and the two times.  An
    element of [environmentIds] can be [undefined]. *)
Module Payload.
Record t := {
  services : list ContentCloudService.t;
  permissions : list ContentCloudPermission.t;
  spaceId : option string;
  environmentIds : list (option string);
  userId : option string;
  userDataContentTypes : option (list string);
  clientId : string;
  iat : Z;
  exp : Z;
}.
End Payload.

(** What a call returns: the token of the signer, with the payload and the
    key it was made from. *)
Record Signed := {
  payload : Payload.t;
  key : string;
  token : string;
}.

Definition MalformedSecretError : JsError :=
  Error "clientSecret uses an unsupported format.".

Section Issuer.

(** [jsonwebtoken.sign(payload, secret)]: the compact token, [None] when
    the library throws. *)
Variable sign : Payload.t -> string -> option string.

(** [env] is [process.env] and [nowMs] is [Date.now()], in
    milliseconds. *)
Definition generateAccessToken (env : gmap string string) (nowMs : Z)
    (properties : Properties.t) (ttlInSeconds : option Z)
    (clientSecret : option string) : Completion Signed :=
  let ttlInSeconds := default 3600 ttlInSeconds in
  let clientSecret :=
    match truthy clientSecret with
    | Some s => Some s
    | None => env !! "CC_CLIENT_SECRET"
    end in
  match truthy clientSecret with
  | None => Throw MissingSecretError
  | Some clientSecret =>
      let parts := split "=" clientSecret in
      match truthy (parts !! 0%nat), truthy (parts !! 1%nat) with
      | Some clientId, Some secret =>
          let iat := nowMs / 1000 in
          let payload :=
            {| Payload.services := Properties.services properties;
               Payload.permissions := Properties.permissions properties;
               Payload.userId := Properties.userId properties;
               Payload.userDataContentTypes :=
                 Properties.userDataContentTypes properties;
               Payload.spaceId :=
                 Properties.spaceId properties ?? env !! "CC_SPACE_ID";
               Payload.environmentIds :=
                 match Properties.environmentIds properties with
                 | Some ids => map Some ids
                 | None => [env !! "CC_ENVIRONMENT_ID"]
                 end;
               Payload.clientId := clientId;
               Payload.iat := iat;
               Payload.exp := iat + ttlInSeconds |} in
          match sign payload secret with
          | Some compact =>
              Return {| payload := payload; key := secret;
                        token := compact |}
          | None => Throw JsonWebTokenError
          end
      | _, _ => Throw MalformedSecretError
      end
  end.

End Issuer.

End Legacy.

(** [s.includes(c)] for a one-character [c]. *)
Fixpoint includes (c : ascii) (s : string) : bool :=
  match s with
  | EmptyString => false
  | String a rest => Ascii.eqb a c || includes c rest
  end.

(** ** Domain keys

    [convertBase] and [getDomainKey] of the system REST client.  Numbers
    are JavaScript doubles, which are exact for integers below [2 ^ 53]; the
    model computes with exact integers, and the properties that read a
    number are stated for inputs whose number stays below that bound.  The
    bases are whole numbers, the target base at least 1. *)

Definition dictionary : list ascii :=
  list_ascii_of_string
    "0123456789abcdefghijklmnopqrstuvwxyzABCDEFGHIJKLMNOPQRSTUVWXYZ+/".

(** [array.indexOf(digit)], [None] for [-1]. *)
Fixpoint indexOf (digit : ascii) (array : list ascii) : option nat :=
  match array with
  | [] => None
  | a :: rest =>
      if Ascii.eqb a digit then Some 0%nat
      else option_map S (indexOf digit rest)
  end.

(** The [reduce] over the reversed digits: [index] is the position of the
    digit at hand and [sum] the accumulator. *)
Fixpoint sumDigits (fromDictionary : list ascii) (fromBase : N)
    (digits : list ascii) (index : N) (sum : N) : Completion N :=
  match digits with
  | [] => Return sum
  | digit :: rest =>
      match indexOf digit fromDictionary with
      | None =>
          Throw (Error ("Invalid digit `" +:+ String digit EmptyString
                        +:+ "` for base "
                        +:+ NilZero.string_of_uint (N.to_uint fromBase)
                        +:+ "."))
      | Some i =>
          sumDigits fromDictionary fromBase rest (index + 1)
            (sum + N.of_nat i * fromBase ^ index)%N
      end
  end.

(** The [while (num > 0)] loop, run for at most [fuel] rounds: [None] when
    the rounds do not suffice.  A digit past the end of the dictionary is
    [undefined], which concatenates as that word. *)
Fixpoint digitsOf (fuel : nat) (toDictionary : list ascii) (toBase num : N)
    (result : string) : option string :=
  if (0 <? num)%N then
    match fuel with
    | O => None
    | S fuel =>
        digitsOf fuel toDictionary toBase
          ((num - num mod toBase) / toBase)%N
          (match toDictionary !! N.to_nat (num mod toBase) with
           | Some d => String d EmptyString
           | None => "undefined"
           end +:+ result)
    end
  else Some result.

(** [convertBase(value, fromBase, toBase)]; [None] when the loop does not
    end, which is the case of base 1.  The loop divides by the base, so the
    binary length of the number bounds its rounds for every larger base. *)
Definition convertBase (value : string) (fromBase toBase : N)
    : option (Completion string) :=
  let fromDictionary := take (N.to_nat fromBase) dictionary in
  let toDictionary := take (N.to_nat toBase) dictionary in
  match
    sumDigits fromDictionary fromBase (rev (list_ascii_of_string value)) 0 0
  with
  | Throw e => Some (Throw e)
  | Return num =>
      match
        digitsOf (S (N.to_nat (N.log2 num))) toDictionary toBase num
          EmptyString
      with
      | Some EmptyString => Some (Return "0")
      | Some result => Some (Return result)
      | None => None
      end
  end.

(** [ContentCloudSystemRestClient.getDomainKey(id)] *)
Definition getDomainKey (id : string) : option (Completion string) :=
  convertBase id 62 36.

(** One step of reading a numeral. *)
Definition readDigit (base : N) (acc : option N) (digit : ascii) : option N :=
  match acc, indexOf digit (take (N.to_nat base) dictionary) with
  | Some n, Some i => Some (n * base + N.of_nat i)%N
  | _, _ => None
  end.

(** The number a text denotes in a base, read with the dictionary from the
    most significant digit; [None] when a character is no digit of the
    base. *)
Definition numeral (base : N) (text : string) : option N :=
  fold_left (readDigit base) (list_ascii_of_string text) (Some 0%N).

Module DomainKeySample.

Definition id : string := "zZ9".

Definition key : string := "2yqj".

End DomainKeySample.

(** ** The REST client: access token and constructor

    [parseJwt] and the constructor of [ContentCloudRestClient].  The chain
    [atob], [decodeURIComponent], [JSON.parse] that turns the payload
    segment into an object is the platform's and is a parameter; the
    payload is read as an object with an optional [spaceId] text and an
    optional [environmentIds] list, the two members the constructor
    reads. *)

(** [s.endsWith(suffix)] *)
Definition endsWith (s suffix : string) : bool :=
  bool_decide
    (list_ascii_of_string suffix `suffix_of` list_ascii_of_string s).

(** [s.replace(/from/g, to)] for a one-character pattern. *)
Fixpoint replaceAll (from to : ascii) (s : string) : string :=
  match s with
  | EmptyString => EmptyString
  | String c rest =>
      String (if Ascii.eqb c from then to else c) (replaceAll from to rest)
  end.

Module Rest.

Inductive Failure :=
| FailError (message : string)
| FailTypeError (property : string)
| FailDecode.

Inductive Outcome (A : Type) :=
| Done (a : A)
| Failed (f : Failure).

Arguments Done {A} a.
Arguments Failed {A} f.

(** The members of the token payload that the client reads. *)
Module Token.
Record t := {
  spaceId : option string;
  environmentIds : option (list (option string));
}.
End Token.

(** [this.token]: [undefined], the empty string, or the parsed payload. *)
Inductive TokenValue :=
| TokenUndefined
| TokenEmpty
| TokenPayload (p : Token.t).

Record RestClientOptions := {
  baseUrl : option string;
  accessToken : option string;
  spaceId : option string;
  environmentId : option string;
}.

Section Client.

(** [JSON.parse(decodeURIComponent(atob(base64)...))] *)
Variable decodePayload : string -> Outcome Token.t.

(** Parses a token to return the payload; the token is not validated.  A
    token without a dot has no second segment, and [replace] is read on
    [undefined]. *)
Definition parseJwt (token : string) : Outcome Token.t :=
  match split "." token !! 1%nat with
  | None => Failed (FailTypeError "replace")
  | Some base64Url =>
      let base64 := replaceAll "_" "/" (replaceAll "-" "+" base64Url) in
      decodePayload base64
  end.

(** The constructor: the options of the client it builds.  [process_env]
    is [process.env], [None] where there is no [process] object. *)
Definition construct (process_env : option (gmap string string))
    (options : option RestClientOptions) : Outcome RestClientOptions :=
  let options :=
    default {| baseUrl := None; accessToken := None; spaceId := None;
               environmentId := None |} options in
  let baseUrl' :=
    match truthy (baseUrl options) with
    | Some b => Some b
    | None =>
        match process_env with
        | Some env => env !! "CC_SATELLITE_BASE_URL" ?? env !! "CC_BASE_URL"
        | None => baseUrl options
        end
    end in
  match truthy baseUrl' with
  | None => Failed (FailError "baseUrl is required.")
  | Some b =>
      if endsWith b "/"
      then Failed (FailError "baseUrl must not end with a slash.")
      else
        let accessToken' :=
          match truthy (accessToken options) with
          | Some t => Some t
          | None =>
              match process_env with
              | Some env => env !! "CC_ACCESS_TOKEN"
              | None => accessToken options
              end
          end in
        let token :=
          match accessToken' with
          | None => Done TokenUndefined
          | Some EmptyString => Done TokenEmpty
          | Some t =>
              match parseJwt t with
              | Done p => Done (TokenPayload p)
              | Failed f => Failed f
              end
          end in
        match token with
        | Failed f => Failed f
        | Done token =>
            let spaceId' :=
              match truthy (spaceId options) with
              | Some id => Done (Some id)
              | None =>
                  match token with
                  | TokenUndefined => Failed (FailTypeError "spaceId")
                  | TokenEmpty => Done (spaceId options)
                  | TokenPayload p =>
                      match truthy (Token.spaceId p) with
                      | Some id => Done (Some id)
                      | None => Done (spaceId options)
                      end
                  end
              end in
            match spaceId' with
            | Failed f => Failed f
            | Done spaceId' =>
                let environmentId' :=
                  match truthy (environmentId options) with
                  | Some id => Done (Some id)
                  | None =>
                      match token with
                      | TokenUndefined =>
                          Failed (FailTypeError "environmentIds")
                      | TokenEmpty => Done (environmentId options)
                      | TokenPayload p =>
                          match Token.environmentIds p with
                          | Some (first :: _) => Done first
                          | _ => Done (environmentId options)
                          end
                      end
                  end in
                match environmentId' with
                | Failed f => Failed f
                | Done environmentId' =>
                    Done {| baseUrl := Some b;
                            accessToken := accessToken';
                            spaceId := spaceId';
                            environmentId := environmentId' |}
                end
            end
        end
  end.

End Client.

End Rest.

Module RestSample.

(** The payload segment decodes to a space and two environments. *)
Definition decodePayload (base64 : string) : Rest.Outcome Rest.Token.t :=
  Rest.Done {| Rest.Token.spaceId := Some "sp1";
               Rest.Token.environmentIds := Some [Some "env1"; Some "env2"] |}.

Definition env : gmap string string :=
  <["CC_BASE_URL" := "https://cloud.example.com"]> ∅.

Definition options : Rest.RestClientOptions :=
  {| Rest.baseUrl := Some "https://cloud.example.com";
     Rest.accessToken := Some "header.payload.signature";
     Rest.spaceId := None;
     Rest.environmentId := Some "preview" |}.

Definition built : Rest.RestClientOptions :=
  {| Rest.baseUrl := Some "https://cloud.example.com";
     Rest.accessToken := Some "header.payload.signature";
     Rest.spaceId := Some "sp1";
     Rest.environmentId := Some "preview" |}.

End RestSample.

(** ** Query strings and request URLs of the system REST client

    Texts are read as UTF-8, so [encodeURIComponent] escapes byte by byte;
    it is defined on well-formed texts, which is all it accepts without
    throwing.  A query parameter is a text, a whole number, a boolean, an
    array of texts, [null] or [undefined]. *)

(** The characters [encodeURIComponent] leaves alone. *)
Definition unreserved (c : ascii) : bool :=
  let n := N_of_ascii c in
  (65 <=? n)%N && (n <=? 90)%N || (97 <=? n)%N && (n <=? 122)%N
  || (48 <=? n)%N && (n <=? 57)%N || includes c "-_.!~*'()".

Definition hexDigit (n : N) : ascii :=
  nth (N.to_nat n) (list_ascii_of_string "0123456789ABCDEF") "0"%char.

Definition percentEncode (c : ascii) : string :=
  let n := N_of_ascii c in
  String "%" (String (hexDigit (n / 16)) (String (hexDigit (n mod 16))
    EmptyString)).

Fixpoint encodeURIComponent (s : string) : string :=
  match s with
  | EmptyString => EmptyString
  | String c rest =>
      (if unreserved c then String c EmptyString else percentEncode c)
      +:+ encodeURIComponent rest
  end.

Inductive QueryValue :=
| QString (s : string)
| QNumber (n : Z)
| QBoolean (b : bool)
| QArray (items : list string)
| QNull
| QUndefined.

(** The text of a parameter: the text itself, nothing for [null] and
    [undefined], the items joined by commas, and [toString()] otherwise. *)
Definition queryValueText (value : QueryValue) : string :=
  match value with
  | QString s => s
  | QNull | QUndefined => EmptyString
  | QArray items => String.concat "," items
  | QNumber n => NilZero.string_of_int (Z.to_int n)
  | QBoolean true => "true"
  | QBoolean false => "false"
  end.

(** The text of one parameter. *)
Definition parameterText (entry : string * QueryValue) : string :=
  encodeURIComponent (fst entry) +:+ "=" +:+
  encodeURIComponent (queryValueText (snd entry)).

(** Serialize the entries of an object, in order, to query parameters. *)
Definition serializeQuery (queryParameters : list (string * QueryValue))
    : string :=
  String.concat "&"
    (map (fun entry =>
            encodeURIComponent (fst entry) +:+ "=" +:+
            encodeURIComponent (queryValueText (snd entry)))
       queryParameters).

(** Provide an image URL using the image optimization API. *)
Definition buildImageUrl (originalUrl : string)
    (settings : list (string * QueryValue)) : string :=
  let query := serializeQuery settings in
  if includes "?" originalUrl then originalUrl +:+ "&" +:+ query
  else originalUrl +:+ "?" +:+ query.

Module RestInterfaceDataTypes.
Inductive t := space | content_types | locales | entries | assets | tags.

Definition value (type : t) : string :=
  match type with
  | space => "space"
  | content_types => "content_types"
  | locales => "locales"
  | entries => "entries"
  | assets => "assets"
  | tags => "tags"
  end.
End RestInterfaceDataTypes.

(** The URL that [get(path, query)] fetches. *)
Definition getUrl (baseUrl path : string) (query : option string) : string :=
  baseUrl +:+ path +:+
  match truthy query with
  | Some q => "?" +:+ q
  | None => EmptyString
  end.

(** The URL that [query(type, id, queryParameters)] fetches. *)
Definition queryUrl (baseUrl : string) (type : RestInterfaceDataTypes.t)
    (id : option string)
    (queryParameters : option (list (string * QueryValue))) : string :=
  getUrl baseUrl
    ("/" +:+ RestInterfaceDataTypes.value type +:+
     match truthy id with
     | Some id => "/" +:+ id
     | None => EmptyString
     end)
    (option_map serializeQuery queryParameters).


(** The number of times a character occurs in a text. *)
Fixpoint occurrences (c : ascii) (s : string) : nat :=
  match s with
  | EmptyString => 0%nat
  | String a rest =>
      ((if Ascii.eqb a c then 1 else 0) + occurrences c rest)%nat
  end.

Module QuerySample.

Definition settings : list (string * QueryValue) :=
  [("width", QNumber 300); ("fit", QString "scale-down");
   ("background", QString "#fff&x=1?")].

End QuerySample.

(** ** The GraphQL client: the methods behind the proxy

    [createContentCloudGraphQLClient] answers a property read with a
    method chosen from the property name.  The two lists of type names come
    from the generated schema and are parameters.  Case mapping is that of
    ASCII letters, which is what names of GraphQL types are made of. *)
Module GraphQL.

Definition toUpperCase (c : ascii) : ascii :=
  let n := N_of_ascii c in
  if (97 <=? n)%N && (n <=? 122)%N then ascii_of_N (n - 32) else c.

Definition toLowerCase (c : ascii) : ascii :=
  let n := N_of_ascii c in
  if (65 <=? n)%N && (n <=? 90)%N then ascii_of_N (n + 32) else c.

(** [s.charAt(0).toUpperCase() + s.slice(1)] *)
Definition capitalize (s : string) : string :=
  match s with
  | EmptyString => EmptyString
  | String c rest => String (toUpperCase c) rest
  end.

(** [s.charAt(0).toLowerCase() + s.slice(1)] *)
Definition uncapitalize (s : string) : string :=
  match s with
  | EmptyString => EmptyString
  | String c rest => String (toLowerCase c) rest
  end.

(** [s.slice(0, -n)] *)
Definition sliceEnd (n : nat) (s : string) : string :=
  let chars := list_ascii_of_string s in
  string_of_list_ascii (take (length chars - n) chars).

(** [s.slice(n)] *)
Definition sliceStart (n : nat) (s : string) : string :=
  string_of_list_ascii (drop n (list_ascii_of_string s)).

(** What a property read gives: a method that calls [entry],
    [collection] or [setContentUserData] for a type, or the property of the
    client itself ([Reflect.get]). *)
Inductive Handler :=
| Entry (contentType : string)
| Collection (contentType : string)
| SetContentUserData (contentType : string)
| Target.

Section Proxy.
Variables INDEPENDENT_ENTRY_TYPES CONTENT_USER_DATA_ENTRY_TYPES : list string.

(** The [get] trap of the proxy. *)
Definition get (prop : string) : Handler :=
  let type := capitalize prop in
  if bool_decide (type ∈ INDEPENDENT_ENTRY_TYPES) then Entry type
  else if endsWith type "Collection" then
    let type := sliceEnd (String.length "Collection") type in
    if bool_decide (type ∈ INDEPENDENT_ENTRY_TYPES) then Collection type
    else Target
  else if String.prefix "Set" type then
    let type := sliceStart (String.length "Set") type in
    if bool_decide (type ∈ CONTENT_USER_DATA_ENTRY_TYPES)
    then SetContentUserData type
    else Target
  else Target.

End Proxy.

(** The name of the query that [entry] sends for a content type. *)
Definition entryQueryName (contentType : string) : string :=
  uncapitalize contentType.

(** The name of the query that [collection] sends for a content type. *)
Definition collectionQueryName (contentType : string) : string :=
  uncapitalize contentType +:+ "Collection".

(** The name of the mutation that [setContentUserData] sends. *)
Definition mutationName (contentType : string) : string :=
  "set" +:+ contentType.

(** An upper-case ASCII letter. *)
Definition isUpperCase (c : ascii) : bool :=
  let n := N_of_ascii c in (65 <=? n)%N && (n <=? 90)%N.

End GraphQL.

Module GraphQLSample.

Definition INDEPENDENT_ENTRY_TYPES : list string :=
  ["Article"; "Settings"; "NewsCollection"; "News"].

Definition CONTENT_USER_DATA_ENTRY_TYPES : list string :=
  ["Bookmark"; "PrivateCollection"].

End GraphQLSample.

(** ** The GraphQL client: reading a response and selecting fields

    The body of a response is read as the GraphQL specification has it:
    [data] is an object, or [null] or absent; [errors], when present, is an
    array of objects with a [message].  Numbers of a JSON value are whole
    numbers here; only whether they are zero is looked at. *)
Module GraphQLResponse.

#[local] Unset Elimination Schemes.
Inductive Json :=
| JNull
| JBoolean (b : bool)
| JNumber (n : Z)
| JString (s : string)
| JArray (items : list Json)
| JObject (members : list (string * Json)).
#[local] Set Elimination Schemes.

(** Truthiness of a JSON value. *)
Definition isTruthy (v : Json) : bool :=
  match v with
  | JNull => false
  | JBoolean b => b
  | JNumber n => negb (n =? 0)
  | JString s => negb (String.eqb s EmptyString)
  | JArray _ | JObject _ => true
  end.

(** The own member of an object with a name. *)
Fixpoint member (name : string) (members : list (string * Json))
    : option Json :=
  match members with
  | [] => None
  | (key, value) :: rest =>
      if String.eqb key name then Some value else member name rest
  end.

Record Result := {
  errors : option (list string);
  data : option (list (string * Json));
}.

Record Response := {
  ok : bool;
  text : string;
  json : Result;
}.

Definition quote : string := String (ascii_of_N 34) EmptyString.

(** What [query] makes of the response to its request: the data, the data
    under [queryName], or an error.  [queryName] is taken not to be the
    name of a member that every object inherits. *)
Definition readResponse (response : Response) (queryName : option string)
    : Rest.Outcome Json :=
  if negb (ok response) then Rest.Failed (Rest.FailError (text response))
  else
    let result := json response in
    match errors result, data result with
    | Some (message :: _), None => Rest.Failed (Rest.FailError message)
    | Some [], None => Rest.Failed (Rest.FailTypeError "message")
    | _, None =>
        Rest.Failed (Rest.FailError "GraphQL response does not contain data.")
    | _, Some members =>
        match truthy queryName with
        | Some name =>
            match member name members with
            | Some value =>
                if isTruthy value then Rest.Done value
                else
                  Rest.Failed
                    (Rest.FailError
                       ("GraphQL response does not contain data for query "
                        +:+ quote +:+ name +:+ quote +:+ "."))
            | None =>
                Rest.Failed
                  (Rest.FailError
                     ("GraphQL response does not contain data for query "
                      +:+ quote +:+ name +:+ quote +:+ "."))
            end
        | None => Rest.Done (JObject members)
        end
    end.

End GraphQLResponse.

(** [getSelectedFields] of the GraphQL client: a selection maps a key to
    [1] or to a selection of its own. *)
Module GraphQLSelect.

#[local] Unset Elimination Schemes.
Inductive Select :=
| Field
| Fields (entries : list (string * Select)).
#[local] Set Elimination Schemes.

Definition newline : string := String (ascii_of_N 10) EmptyString.

Fixpoint selected (key : string) (value : Select) : string :=
  match value with
  | Field => key
  | Fields entries =>
      key +:+ " { " +:+
      String.concat newline
        (map (fun entry => selected (fst entry) (snd entry)) entries)
      +:+ " }"
  end.

Definition getSelectedFields (select : list (string * Select)) : string :=
  String.concat newline
    (map (fun entry => selected (fst entry) (snd entry)) select).

(** The number of nested selections in a value, itself included. *)
Fixpoint nested (value : Select) : nat :=
  match value with
  | Field => 0
  | Fields entries =>
      S (list_sum (map (fun entry => nested (snd entry)) entries))
  end.

(** No key of the value has the character. *)
Fixpoint keysWithout (c : ascii) (value : Select) : bool :=
  match value with
  | Field => true
  | Fields entries =>
      forallb
        (fun entry =>
           negb (includes c (fst entry)) && keysWithout c (snd entry))
        entries
  end.

(** Induction on selections, with the entries of a nested selection. *)
Section SelectInduction.
Variable P : Select -> Prop.
Hypothesis HField : P Field.
Hypothesis HFields :
  forall entries, Forall (fun entry => P (snd entry)) entries ->
                  P (Fields entries).

Fixpoint Select_induction (value : Select) : P value :=
  match value with
  | Field => HField
  | Fields entries =>
      HFields entries
        ((fix all (l : list (string * Select))
            : Forall (fun entry => P (snd entry)) l :=
            match l with
            | [] => List.Forall_nil _
            | entry :: rest =>
                List.Forall_cons _ entry rest (Select_induction (snd entry))
                  (all rest)
            end) entries)
  end.
End SelectInduction.


End GraphQLSelect.

Module GraphQLSelectSample.

Definition select : list (string * GraphQLSelect.Select) :=
  [("items",
    GraphQLSelect.Fields
      [("id", GraphQLSelect.Field);
       ("author", GraphQLSelect.Fields [("name", GraphQLSelect.Field)])]);
   ("total", GraphQLSelect.Field)].

End GraphQLSelectSample.

(** ** Observations on runs and scopes *)

(** The call is the call to the signer. *)
Definition isSignCall (c : Call) : bool :=
  match c with
  | CallSign _ _ _ => true
  | _ => false
  end.

(** The five prefixes a scope entry can carry. *)
Definition scopePrefixes : list string :=
  ["permission:"; "service:"; "space:"; "environment:"; "content-user-data:"].

Definition hasScopePrefix (entry : string) : bool :=
  existsb (fun p => String.prefix p entry) scopePrefixes.

(** ** Sample requests of the first client *)

Module LegacySample.

Definition properties : Legacy.Properties.t :=
  {| Legacy.Properties.services := [ContentCloudService.CDN];
     Legacy.Properties.permissions := [ContentCloudPermission.CONTENT_READ];
     Legacy.Properties.spaceId := Some "sp1";
     Legacy.Properties.environmentIds := None;
     Legacy.Properties.userId := None;
     Legacy.Properties.userDataContentTypes := None |}.

(** Client [abc] with the key [c2VjcmV0], written with its padding. *)
Definition clientSecret : string := "abc=c2VjcmV0==".

(** A signer that accepts every key. *)
Definition sign (p : Legacy.Payload.t) (key : string) : option string :=
  Some "header.payload.signature".

Definition signed : Legacy.Signed :=
  {| Legacy.payload :=
       {| Legacy.Payload.services := [ContentCloudService.CDN];
          Legacy.Payload.permissions := [ContentCloudPermission.CONTENT_READ];
          Legacy.Payload.spaceId := Some "sp1";
          Legacy.Payload.environmentIds := [None];
          Legacy.Payload.userId := None;
          Legacy.Payload.userDataContentTypes := None;
          Legacy.Payload.clientId := "abc";
          Legacy.Payload.iat := 1700000000;
          Legacy.Payload.exp := 1700003600 |};
     Legacy.key := "c2VjcmV0";
     Legacy.token := "header.payload.signature" |}.

End LegacySample.

(** * Properties *)

(** ** The run of the issuer in closed form *)

Section IssuedFacts.
Context `{R : Runtime}.

Lemma generateAccessToken_issued env now payload ttlInSeconds clientSecret :
  generateAccessToken env now payload ttlInSeconds clientSecret
  = issued env now payload ttlInSeconds clientSecret.
Proof.
  unfold generateAccessToken, issued, resolveClientSecret, credentialOf.
  destruct (truthy _) as [secret|]; [|reflexivity].
  destruct (truthy (split ":" secret !! 0%nat)) as [clientId|];
    [|reflexivity].
  destruct (truthy (split ":" secret !! 1%nat)) as [issuerBase64|];
    [|reflexivity].
  destruct (truthy (split ":" secret !! 2%nat)) as [secretBase64|];
    [|reflexivity].
  fold (resolveBaseUrl env payload).
  unfold bind, newURL_hostname; cbn [completion calls].
  destruct (url_hostname _) as [hostname|]; [|reflexivity].
  cbn [completion calls bufferFromBase64 jsonwebtoken_sign app].
  fold (asymmetricKey (base64_decode secretBase64)).
  fold (keyOf secretBase64).
  fold (optionsOf clientId secretBase64 ttlInSeconds).
  match goal with
  | |- context [CallSign ?q _ _] =>
      replace q with (claimsOf env payload hostname issuerBase64)
  end; [reflexivity|].
  unfold claimsOf, scopeOf, environmentScope.
  destruct payload as [bu ss ps sp es uid cts]; cbn [permissions services
    spaceId environmentIds userId userDataContentTypes].
  destruct ps, ss, es, (truthy (env !! "CC_ENVIRONMENT_ID")), cts,
    (truthy uid);
    unfold scope_push, set_sub; simpl;
    rewrite ?app_nil_r, <- ?app_assoc; reflexivity.
Qed.

End IssuedFacts.

Example sample_run :
  Sample.run Sample.request None (Some Sample.clientSecret)
  = mkRun
      [CallNewURL "https://cloud.example.com:8443/spaces/sp1?draft=1";
       CallBufferFromBase64 "aXNz"; CallBufferFromBase64 "c2VjcmV0";
       CallSign (claims Sample.token)
         (KeyBuffer ["s"; "e"; "c"; "r"; "e"; "t"]%byte)
         {| algorithm := HS256; keyid := "client:abc:0";
            expiresIn := 3600 |}]
      (Return Sample.token).
Proof. vm_compute. reflexivity. Qed.

Example sample_run_pem :
  completion (Sample.run Sample.request (Some 60) (Some Sample.pemSecret))
  = Return Sample.pemToken.
Proof. vm_compute. reflexivity. Qed.

Example split_segments :
  split ":" "abc:aXNz:c2VjcmV0" = ["abc"; "aXNz"; "c2VjcmV0"] /\
  split ":" "abc" = ["abc"] /\
  split ":" "a::c:" = ["a"; EmptyString; "c"; EmptyString] /\
  split ":" EmptyString = [EmptyString].
Proof. repeat split; reflexivity. Qed.

Example reference_decode :
  Reference.decode "aXNz" = ["i"; "s"; "s"]%byte /\
  Reference.decode "LS0tLS1CRUdJTg==" =
    ["-"; "-"; "-"; "-"; "-"; "B"; "E"; "G"; "I"; "N"]%byte /\
  Reference.hostname "https://user@example.com:8443/a/b?x=1"
  = Some "example.com" /\
  Reference.hostname "undefined" = None.
Proof. repeat split; vm_compute; reflexivity. Qed.

(** ** Shared facts *)

Section Facts.
Context `{R : Runtime}.

(** A run that returns a token went through every stage: the secret was
    resolved and parsed, the base URL had a host name, the signer accepted
    the request, and the token is the signer's for the claims, key and
    options the issuer computed. *)
Lemma generateAccessToken_Return env now payload ttlInSeconds clientSecret
    tok :
  completion (generateAccessToken env now payload ttlInSeconds clientSecret)
  = Return tok ->
  exists secret clientId issuerBase64 secretBase64 hostname,
    resolveClientSecret env clientSecret = Some secret /\
    credentialOf secret = Some (clientId, issuerBase64, secretBase64) /\
    url_hostname (toString (resolveBaseUrl env payload)) = Some hostname /\
    header tok
    = {| alg := algorithm (optionsOf clientId secretBase64 ttlInSeconds);
         typ := "JWT";
         kid := keyid (optionsOf clientId secretBase64 ttlInSeconds) |} /\
    claims tok = claimsOf env payload hostname issuerBase64 /\
    iat tok = now /\
    exp tok = now + default 3600 ttlInSeconds /\
    calls (generateAccessToken env now payload ttlInSeconds clientSecret)
    = [CallNewURL (toString (resolveBaseUrl env payload));
       CallBufferFromBase64 issuerBase64;
       CallBufferFromBase64 secretBase64;
       CallSign (claimsOf env payload hostname issuerBase64)
         (keyOf secretBase64)
         (optionsOf clientId secretBase64 ttlInSeconds)].
Proof.
  rewrite generateAccessToken_issued. unfold issued.
  destruct (resolveClientSecret env clientSecret) as [secret|];
    [|discriminate].
  destruct (credentialOf secret)
    as [[[clientId issuerBase64] secretBase64]|] eqn:Hcred; [|discriminate].
  destruct (url_hostname _) as [hostname|] eqn:Hurl; [|discriminate].
  cbn [completion calls].
  destruct (jws_sign _ _ _ _ _) as [sig|]; [|discriminate].
  intros [= <-].
  exists secret, clientId, issuerBase64, secretBase64, hostname.
  repeat split; solve [reflexivity | assumption].
Qed.

(** The parsed credential is made of the first three segments. *)
Lemma credentialOf_Some secret clientId issuerBase64 secretBase64 :
  credentialOf secret = Some (clientId, issuerBase64, secretBase64) ->
  split ":" secret !! 0%nat = Some clientId /\
  split ":" secret !! 1%nat = Some issuerBase64 /\
  split ":" secret !! 2%nat = Some secretBase64.
Proof.
  unfold credentialOf.
  destruct (split ":" secret !! 0%nat) as [[|? ?]|]; try discriminate.
  destruct (split ":" secret !! 1%nat) as [[|? ?]|]; try discriminate.
  destruct (split ":" secret !! 2%nat) as [[|? ?]|]; try discriminate.
  cbn. intros [= <- <- <-]. auto.
Qed.

Lemma credentialOf_None secret :
  credentialOf secret = None <->
  truthy (split ":" secret !! 0%nat) = None \/
  truthy (split ":" secret !! 1%nat) = None \/
  truthy (split ":" secret !! 2%nat) = None.
Proof.
  unfold credentialOf.
  destruct (truthy (split ":" secret !! 0%nat)),
    (truthy (split ":" secret !! 1%nat)),
    (truthy (split ":" secret !! 2%nat)); intuition congruence.
Qed.

Lemma at_is_true buf i b : at_is buf i b = true <-> buf !! i = Some b.
Proof.
  unfold at_is. destruct (buf !! i) as [x|]; [|intuition congruence].
  split.
  - intros Hx. f_equal. apply Byte.byte_dec_bl, Hx.
  - intros [= ->]. apply Byte.byte_dec_lb. reflexivity.
Qed.

(** The byte test is a test on the first five bytes. *)
Lemma asymmetricKey_true secretBinary :
  asymmetricKey secretBinary = true <-> take 5 secretBinary = replicate 5 x2d.
Proof.
  unfold asymmetricKey. rewrite !andb_true_iff, !at_is_true.
  destruct secretBinary as [|b0 [|b1 [|b2 [|b3 [|b4 rest]]]]]; cbn;
    try (intuition congruence).
  rewrite take_0. split.
  - intros [[[[[= ->] [= ->]] [= ->]] [= ->]] [= ->]]. reflexivity.
  - intros [= -> -> -> -> ->]. auto.
Qed.

Lemma asymmetricKey_false secretBinary :
  asymmetricKey secretBinary = false <->
  take 5 secretBinary <> replicate 5 x2d.
Proof.
  rewrite <- asymmetricKey_true.
  destruct (asymmetricKey secretBinary); intuition congruence.
Qed.

End Facts.

(** No entry but the space entry starts with [space:]. *)
Section SpaceEntries.

Lemma permissions_no_space_entry ps :
  List.filter isSpaceEntry (map ContentCloudPermission.value ps) = [].
Proof.
  induction ps as [|p ps IH]; [reflexivity|].
  destruct p; cbn; exact IH.
Qed.

Lemma services_no_space_entry ss :
  List.filter isSpaceEntry (map ContentCloudService.value ss) = [].
Proof.
  induction ss as [|s ss IH]; [reflexivity|].
  destruct s; cbn; exact IH.
Qed.

Lemma environments_no_space_entry env payload :
  List.filter isSpaceEntry (environmentScope env payload) = [].
Proof.
  unfold environmentScope.
  destruct (environmentIds payload) as [ids|].
  - induction ids as [|i ids IH]; [reflexivity|]. cbn. exact IH.
  - destruct (truthy (env !! "CC_ENVIRONMENT_ID")); reflexivity.
Qed.

Lemma user_data_no_space_entry cts :
  List.filter isSpaceEntry
    (map (fun ct => "content-user-data:" +:+ ct) cts) = [].
Proof.
  induction cts as [|ct cts IH]; [reflexivity|]. cbn. exact IH.
Qed.

Lemma space_entry_is_space_entry id :
  isSpaceEntry ("space:" +:+ id) = true.
Proof. destruct id; reflexivity. Qed.

Lemma scopeOf_one_space_entry env payload :
  List.filter isSpaceEntry (scopeOf env payload)
  = ["space:" +:+ toString (spaceId payload ?? env !! "CC_SPACE_ID")].
Proof.
  unfold scopeOf.
  rewrite !List.filter_app, permissions_no_space_entry,
    services_no_space_entry, environments_no_space_entry,
    user_data_no_space_entry.
  cbn [List.filter]. rewrite space_entry_is_space_entry. reflexivity.
Qed.

End SpaceEntries.

(** ** C1: the algorithm is chosen by the first five bytes of the key *)

(** C1.  When the issuer returns a token, the secret material is the base64
    decoding of the third segment of the resolved client secret, and the
    signer is the last call made.  If the first five bytes of the material
    are [0x2d], the header and the sign options say [RS256] and the key
    handed to the signer is the material decoded as UTF-8 text; otherwise
    they say [HS256] and the key is the buffer itself.  (A buffer shorter
    than five bytes is in the second case.) *)
Theorem generateAccessToken_algorithm `{Runtime} env now payload ttlInSeconds
    clientSecret tok :
  completion (generateAccessToken env now payload ttlInSeconds clientSecret)
  = Return tok ->
  exists secret secretBase64 p options,
    resolveClientSecret env clientSecret = Some secret /\
    split ":" secret !! 2%nat = Some secretBase64 /\
    let secretBinary := base64_decode secretBase64 in
    (take 5 secretBinary = replicate 5 x2d ->
     alg (header tok) = RS256 /\ algorithm options = RS256 /\
     last (calls (generateAccessToken env now payload ttlInSeconds
                    clientSecret))
     = Some (CallSign p (KeyString (utf8_toString secretBinary)) options)) /\
    (take 5 secretBinary <> replicate 5 x2d ->
     alg (header tok) = HS256 /\ algorithm options = HS256 /\
     last (calls (generateAccessToken env now payload ttlInSeconds
                    clientSecret))
     = Some (CallSign p (KeyBuffer secretBinary) options)).
Proof.
  intros Hret.
  destruct (generateAccessToken_Return _ _ _ _ _ _ Hret)
    as (secret & clientId & issuerBase64 & secretBase64 & hostname
        & Hsecret & Hcred & _ & Hheader & _ & _ & _ & Hcalls).
  apply credentialOf_Some in Hcred as (_ & _ & Hthird).
  exists secret, secretBase64, (claimsOf env payload hostname issuerBase64),
    (optionsOf clientId secretBase64 ttlInSeconds).
  split; [exact Hsecret|]. split; [exact Hthird|].
  rewrite Hcalls, Hheader. unfold keyOf, optionsOf. cbn [alg algorithm last].
  split.
  - intros Hdash%asymmetricKey_true. rewrite Hdash. auto.
  - intros Hdash%asymmetricKey_false. rewrite Hdash. auto.
Qed.

Lemma generateAccessToken_algorithm_witness :
  exists secret secretBase64 p options,
    resolveClientSecret Sample.env (Some Sample.pemSecret) = Some secret /\
    split ":" secret !! 2%nat = Some secretBase64 /\
    let secretBinary := Reference.decode secretBase64 in
    (take 5 secretBinary = replicate 5 x2d ->
     alg (header Sample.pemToken) = RS256 /\ algorithm options = RS256 /\
     last (calls (Sample.run Sample.request (Some 60)
                    (Some Sample.pemSecret)))
     = Some (CallSign p (KeyString (Reference.text secretBinary))
               options)) /\
    (take 5 secretBinary <> replicate 5 x2d ->
     alg (header Sample.pemToken) = HS256 /\ algorithm options = HS256 /\
     last (calls (Sample.run Sample.request (Some 60)
                    (Some Sample.pemSecret)))
     = Some (CallSign p (KeyBuffer secretBinary) options)).
Proof.
  apply (@generateAccessToken_algorithm Reference.runtime Sample.env
           Sample.now Sample.request (Some 60) (Some Sample.pemSecret)
           Sample.pemToken).
  vm_compute. reflexivity.
Defined.

(** ** C2: the scope is built in a fixed order *)

(** C2, as stated, fails: a request whose [environmentIds] is the empty
    list, in an environment without [CC_ENVIRONMENT_ID], resolves no
    environment id, and the issued scope has no environment entry at all,
    not the one [environment:*] entry the claim promises. *)
Lemma generateAccessToken_empty_environment_list :
  environmentIds Sample.noEnvironments = Some [] /\
  Sample.env !! "CC_ENVIRONMENT_ID" = None /\
  exists tok,
    completion
      (Sample.run Sample.noEnvironments None (Some Sample.clientSecret))
    = Return tok /\
    scope (claims tok)
    = ["permission:content:read"; "service:cdn"; "space:sp1";
       "content-user-data:*"] /\
    List.filter (String.prefix "environment:") (scope (claims tok)) = [].
Proof.
  split; [reflexivity|]. split; [reflexivity|].
  eexists. repeat split; vm_compute; reflexivity.
Qed.

(** C2, amended.  The scope of an issued token is, in this order: the value
    of every permission of the request, the value of every service, one
    [space:<spaceId>] entry, the environment entries, and one
    [content-user-data:<contentType>] entry per user-data content type.  The
    environment entries are one [environment:<id>] per id of the supplied
    list (so none for a supplied empty list); without a list, the one entry
    of [CC_ENVIRONMENT_ID] when that is set and not empty, and
    [environment:*] otherwise.  The lists are mapped and appended as they
    are: nothing is removed or moved, and the space entry is the only entry
    that starts with [space:]. *)
Theorem generateAccessToken_scope `{Runtime} env now payload ttlInSeconds
    clientSecret tok :
  completion (generateAccessToken env now payload ttlInSeconds clientSecret)
  = Return tok ->
  scope (claims tok)
  = map ContentCloudPermission.value (default [] (permissions payload))
    ++ map ContentCloudService.value (default [] (services payload))
    ++ ["space:" +:+ toString (spaceId payload ?? env !! "CC_SPACE_ID")]
    ++ match environmentIds payload with
       | Some ids => map (fun envId => "environment:" +:+ envId) ids
       | None =>
           match truthy (env !! "CC_ENVIRONMENT_ID") with
           | Some envId => ["environment:" +:+ envId]
           | None => ["environment:*"]
           end
       end
    ++ map (fun ct => "content-user-data:" +:+ ct)
         (default [] (userDataContentTypes payload)) /\
  List.filter isSpaceEntry (scope (claims tok))
  = ["space:" +:+ toString (spaceId payload ?? env !! "CC_SPACE_ID")].
Proof.
  intros Hret.
  destruct (generateAccessToken_Return _ _ _ _ _ _ Hret)
    as (secret & clientId & issuerBase64 & secretBase64 & hostname
        & _ & _ & _ & _ & Hclaims & _).
  rewrite Hclaims. cbn [claimsOf scope].
  split; [reflexivity | apply scopeOf_one_space_entry].
Qed.

Lemma generateAccessToken_scope_witness :
  scope (claims Sample.token)
  = ["permission:content:read"; "service:cdn"; "space:sp1";
     "environment:env1"; "environment:env2"; "content-user-data:*"] /\
  List.filter isSpaceEntry (scope (claims Sample.token)) = ["space:sp1"].
Proof.
  apply (@generateAccessToken_scope Reference.runtime Sample.env Sample.now
           Sample.request None (Some Sample.clientSecret) Sample.token).
  vm_compute. reflexivity.
Defined.

(** ** C3: a malformed client secret *)

(** C3, as stated, fails: a secret of four segments whose first three are
    not empty is accepted, and the call returns the token of the
    three-segment secret. *)
Lemma generateAccessToken_long_secret_accepted :
  split ":" Sample.longSecret = ["abc"; "aXNz"; "c2VjcmV0"; "extra"] /\
  completion (Sample.run Sample.request None (Some Sample.longSecret))
  = Return Sample.token.
Proof. split; vm_compute; reflexivity. Qed.

(** C3, amended.  The issuer throws the malformed-secret error exactly when
    a client secret is resolved and one of its first three colon-delimited
    segments is missing or empty; segments after the third are not looked
    at.  Nothing is called before the error. *)
Theorem generateAccessToken_malformed_secret `{Runtime} env now payload
    ttlInSeconds clientSecret :
  (completion (generateAccessToken env now payload ttlInSeconds clientSecret)
   = Throw MalformedSecretError <->
   exists secret,
     resolveClientSecret env clientSecret = Some secret /\
     (truthy (split ":" secret !! 0%nat) = None \/
      truthy (split ":" secret !! 1%nat) = None \/
      truthy (split ":" secret !! 2%nat) = None)) /\
  (completion (generateAccessToken env now payload ttlInSeconds clientSecret)
   = Throw MalformedSecretError ->
   calls (generateAccessToken env now payload ttlInSeconds clientSecret)
   = []).
Proof.
  rewrite generateAccessToken_issued. unfold issued.
  destruct (resolveClientSecret env clientSecret) as [secret|].
  - destruct (credentialOf secret) as [[[clientId issuerBase64] secretBase64]|]
      eqn:Hcred.
    + assert (Hwell : ~ (truthy (split ":" secret !! 0%nat) = None \/
                         truthy (split ":" secret !! 1%nat) = None \/
                         truthy (split ":" secret !! 2%nat) = None)).
      { rewrite <- credentialOf_None. congruence. }
      assert (Hnot : ~ exists secret',
                 Some secret = Some secret' /\
                 (truthy (split ":" secret' !! 0%nat) = None \/
                  truthy (split ":" secret' !! 1%nat) = None \/
                  truthy (split ":" secret' !! 2%nat) = None)).
      { intros (secret' & [= <-] & Hbad). exact (Hwell Hbad). }
      cbn zeta.
      destruct (url_hostname _) as [hostname|]; cbn [completion calls];
        [destruct (jws_sign _ _ _ _ _) as [sig|]|];
        (split; [split; [discriminate | intros Hbad; destruct (Hnot Hbad)]
                | discriminate]).
    + apply credentialOf_None in Hcred. cbn [completion calls].
      split; [split; [eauto | reflexivity] | reflexivity].
  - cbn [completion calls].
    split; [split; [discriminate | intros (s & [=] & _)] | reflexivity].
Qed.

(** ** C4: a missing client secret *)

(** C4.  Without a [clientSecret] argument and without [CC_CLIENT_SECRET],
    the run is the throw of the missing-secret error and nothing else: no
    URL is parsed, nothing is decoded, the signer is not called, and the
    request, the time-to-live and the platform have no part in it. *)
Theorem generateAccessToken_missing_secret `{Runtime} env now payload
    ttlInSeconds :
  env !! "CC_CLIENT_SECRET" = None ->
  generateAccessToken env now payload ttlInSeconds None
  = mkRun [] (Throw MissingSecretError).
Proof.
  intros Henv. unfold generateAccessToken. cbn [truthy].
  rewrite Henv. reflexivity.
Qed.

Lemma generateAccessToken_missing_secret_witness :
  Sample.run Sample.request None None = mkRun [] (Throw MissingSecretError).
Proof.
  apply (@generateAccessToken_missing_secret Reference.runtime Sample.env
           Sample.now Sample.request None).
  reflexivity.
Defined.

(** ** C5: the audience *)

(** C5.  The audience of an issued token is [https://] followed by the host
    name of the resolved base URL: the request's [baseUrl], else
    [CC_SATELLITE_BASE_URL], else [CC_BASE_URL].  Only the host name of the
    parsed URL enters the claim. *)
Theorem generateAccessToken_audience `{Runtime} env now payload ttlInSeconds
    clientSecret tok :
  completion (generateAccessToken env now payload ttlInSeconds clientSecret)
  = Return tok ->
  exists hostname,
    url_hostname
      (toString (baseUrl payload ?? env !! "CC_SATELLITE_BASE_URL"
                                 ?? env !! "CC_BASE_URL"))
    = Some hostname /\
    aud (claims tok) = "https://" +:+ hostname.
Proof.
  intros Hret.
  destruct (generateAccessToken_Return _ _ _ _ _ _ Hret)
    as (secret & clientId & issuerBase64 & secretBase64 & hostname
        & _ & _ & Hurl & _ & Hclaims & _).
  exists hostname. split; [exact Hurl|]. rewrite Hclaims. reflexivity.
Qed.

Lemma generateAccessToken_audience_witness :
  exists hostname,
    Reference.hostname
      "https://cloud.example.com:8443/spaces/sp1?draft=1" = Some hostname /\
    aud (claims Sample.token) = "https://" +:+ hostname.
Proof.
  apply (@generateAccessToken_audience Reference.runtime Sample.env
           Sample.now Sample.request None (Some Sample.clientSecret)
           Sample.token).
  vm_compute. reflexivity.
Defined.

(** ** C6: no base URL *)

(** C6, as stated, fails: with a well-formed secret and no base URL in the
    request or in the environment, the error thrown is the URL
    constructor's own, for the text [undefined]. *)
Lemma generateAccessToken_no_base_url_type_error :
  resolveBaseUrl Sample.env Sample.bare = None /\
  Sample.run Sample.bare None (Some Sample.clientSecret)
  = mkRun [CallNewURL "undefined"] (Throw (TypeErrorInvalidURL "undefined")).
Proof. split; vm_compute; reflexivity. Qed.

(** C6, amended.  When the client secret is resolved and well formed and no
    base URL comes from the request, [CC_SATELLITE_BASE_URL] or
    [CC_BASE_URL], the issuer fails: the URL constructor is called on the
    text [undefined] and its [TypeError] is what is thrown.  Nothing is
    decoded and the signer is not called. *)
Theorem generateAccessToken_missing_base_url `{Runtime} env now payload
    ttlInSeconds clientSecret secret credential :
  resolveClientSecret env clientSecret = Some secret ->
  credentialOf secret = Some credential ->
  baseUrl payload = None ->
  env !! "CC_SATELLITE_BASE_URL" = None ->
  env !! "CC_BASE_URL" = None ->
  generateAccessToken env now payload ttlInSeconds clientSecret
  = mkRun [CallNewURL "undefined"] (Throw (TypeErrorInvalidURL "undefined")).
Proof.
  intros Hsecret Hcred Hurl Hsat Hbase.
  rewrite generateAccessToken_issued. unfold issued, resolveBaseUrl.
  rewrite Hsecret, Hcred, Hurl, Hsat, Hbase.
  destruct credential as [[clientId issuerBase64] secretBase64].
  cbn [nullish toString]. rewrite url_hostname_undefined. reflexivity.
Qed.

Lemma generateAccessToken_missing_base_url_witness :
  @generateAccessToken Reference.runtime Sample.env Sample.now Sample.bare
    (Some 60) (Some Sample.pemSecret)
  = mkRun [CallNewURL "undefined"] (Throw (TypeErrorInvalidURL "undefined")).
Proof.
  apply (@generateAccessToken_missing_base_url Reference.runtime Sample.env
           Sample.now Sample.bare (Some 60) (Some Sample.pemSecret)
           Sample.pemSecret ("abc", "aXNz", "LS0tLS1CRUdJTg=="));
    reflexivity.
Defined.

(** ** C7: the time to live *)

(** C7.  The expiry of an issued token is its issue time plus the
    time-to-live argument, and plus 3600 when the argument is omitted; the
    same number is the [expiresIn] option of the call to the signer. *)
Theorem generateAccessToken_expiry `{Runtime} env now payload ttlInSeconds
    clientSecret tok :
  completion (generateAccessToken env now payload ttlInSeconds clientSecret)
  = Return tok ->
  exp tok - iat tok
  = match ttlInSeconds with
    | Some ttl => ttl
    | None => 3600
    end /\
  exists p key options,
    last (calls (generateAccessToken env now payload ttlInSeconds
                   clientSecret))
    = Some (CallSign p key options) /\
    expiresIn options = exp tok - iat tok.
Proof.
  intros Hret.
  destruct (generateAccessToken_Return _ _ _ _ _ _ Hret)
    as (secret & clientId & issuerBase64 & secretBase64 & hostname
        & _ & _ & _ & _ & _ & Hiat & Hexp & Hcalls).
  assert (Httl : exp tok - iat tok = default 3600 ttlInSeconds)
    by (rewrite Hiat, Hexp; lia).
  split.
  - rewrite Httl. destruct ttlInSeconds; reflexivity.
  - eexists _, _, _. rewrite Hcalls. split; [reflexivity|].
    rewrite Httl. reflexivity.
Qed.

Lemma generateAccessToken_expiry_witness :
  exp Sample.token - iat Sample.token = 3600 /\
  exists p key options,
    last (calls (Sample.run Sample.request None (Some Sample.clientSecret)))
    = Some (CallSign p key options) /\
    expiresIn options = exp Sample.token - iat Sample.token.
Proof.
  apply (@generateAccessToken_expiry Reference.runtime Sample.env Sample.now
           Sample.request None (Some Sample.clientSecret) Sample.token).
  vm_compute. reflexivity.
Defined.

(** ** C8: the subject *)

(** C8, as stated, fails: a request whose [userId] is the empty string
    supplies a user id, and the issued token has no subject. *)
Lemma generateAccessToken_empty_user_id_no_sub :
  userId Sample.anonymous = Some EmptyString /\
  exists tok,
    completion (Sample.run Sample.anonymous None (Some Sample.clientSecret))
    = Return tok /\
    sub (claims tok) = None.
Proof. split; [reflexivity|]. eexists. split; vm_compute; reflexivity. Qed.

(** C8, amended.  An issued token has a subject exactly when the request
    has a [userId] that is not the empty string, and the subject is then
    that user id; without a [userId], or with an empty one, there is no
    subject. *)
Theorem generateAccessToken_subject `{Runtime} env now payload ttlInSeconds
    clientSecret tok :
  completion (generateAccessToken env now payload ttlInSeconds clientSecret)
  = Return tok ->
  (forall uid, sub (claims tok) = Some uid <->
               userId payload = Some uid /\ uid <> EmptyString) /\
  (sub (claims tok) = None <->
   userId payload = None \/ userId payload = Some EmptyString).
Proof.
  intros Hret.
  destruct (generateAccessToken_Return _ _ _ _ _ _ Hret)
    as (secret & clientId & issuerBase64 & secretBase64 & hostname
        & _ & _ & _ & _ & Hclaims & _).
  rewrite Hclaims. cbn [claimsOf sub].
  destruct (userId payload) as [[|c uid']|]; cbn [truthy].
  - split; [intros uid|]; intuition congruence.
  - split; [intros uid|]; intuition congruence.
  - split; [intros uid|]; intuition congruence.
Qed.

Lemma generateAccessToken_subject_witness :
  (forall uid, sub (claims Sample.token) = Some uid <->
               userId Sample.request = Some uid /\ uid <> EmptyString) /\
  (sub (claims Sample.token) = None <->
   userId Sample.request = None \/ userId Sample.request = Some EmptyString).
Proof.
  apply (@generateAccessToken_subject Reference.runtime Sample.env Sample.now
           Sample.request None (Some Sample.clientSecret) Sample.token).
  vm_compute. reflexivity.
Defined.

(** ** C9: the key identifier *)

(** C9.  The key identifier in the header of an issued token is [client:],
    the first colon-delimited segment of the resolved client secret, and
    [:0]; it is also the [keyid] option of the call to the signer. *)
Theorem generateAccessToken_key_identifier `{Runtime} env now payload
    ttlInSeconds clientSecret tok :
  completion (generateAccessToken env now payload ttlInSeconds clientSecret)
  = Return tok ->
  exists secret clientId p key options,
    resolveClientSecret env clientSecret = Some secret /\
    split ":" secret !! 0%nat = Some clientId /\
    kid (header tok) = "client:" +:+ clientId +:+ ":0" /\
    last (calls (generateAccessToken env now payload ttlInSeconds
                   clientSecret))
    = Some (CallSign p key options) /\
    keyid options = kid (header tok).
Proof.
  intros Hret.
  destruct (generateAccessToken_Return _ _ _ _ _ _ Hret)
    as (secret & clientId & issuerBase64 & secretBase64 & hostname
        & Hsecret & Hcred & _ & Hheader & _ & _ & _ & Hcalls).
  apply credentialOf_Some in Hcred as (Hfirst & _ & _).
  exists secret, clientId. eexists _, _, _.
  rewrite Hcalls, Hheader. cbn [kid last].
  repeat split; solve [eassumption | reflexivity].
Qed.

Lemma generateAccessToken_key_identifier_witness :
  exists secret clientId p key options,
    resolveClientSecret Sample.env (Some Sample.clientSecret) = Some secret /\
    split ":" secret !! 0%nat = Some clientId /\
    kid (header Sample.token) = "client:" +:+ clientId +:+ ":0" /\
    last (calls (Sample.run Sample.request None (Some Sample.clientSecret)))
    = Some (CallSign p key options) /\
    keyid options = kid (header Sample.token).
Proof.
  apply (@generateAccessToken_key_identifier Reference.runtime Sample.env
           Sample.now Sample.request None (Some Sample.clientSecret)
           Sample.token).
  vm_compute. reflexivity.
Defined.

(** ** C10: an unresolved space id *)

(** C10.  Take a request without [spaceId], an environment without
    [CC_SPACE_ID], and everything else in order: the client secret is
    resolved and well formed, the resolved base URL has a host name, and
    the signer accepts the request.  Then the issuer returns a token; its
    scope has the text [space:undefined] where the space entry goes, and
    that is the only entry of the scope that starts with [space:]. *)
Theorem generateAccessToken_space_undefined `{Runtime} env now payload
    ttlInSeconds clientSecret secret clientId issuerBase64 secretBase64
    hostname sig :
  spaceId payload = None ->
  env !! "CC_SPACE_ID" = None ->
  resolveClientSecret env clientSecret = Some secret ->
  credentialOf secret = Some (clientId, issuerBase64, secretBase64) ->
  url_hostname (toString (resolveBaseUrl env payload)) = Some hostname ->
  jws_sign
    {| alg := algorithm (optionsOf clientId secretBase64 ttlInSeconds);
       typ := "JWT";
       kid := keyid (optionsOf clientId secretBase64 ttlInSeconds) |}
    (claimsOf env payload hostname issuerBase64)
    now (now + default 3600 ttlInSeconds) (keyOf secretBase64)
  = Some sig ->
  exists tok,
    completion (generateAccessToken env now payload ttlInSeconds clientSecret)
    = Return tok /\
    scope (claims tok)
    = map ContentCloudPermission.value (default [] (permissions payload))
      ++ map ContentCloudService.value (default [] (services payload))
      ++ ["space:undefined"]
      ++ environmentScope env payload
      ++ map (fun ct => "content-user-data:" +:+ ct)
           (default [] (userDataContentTypes payload)) /\
    List.filter isSpaceEntry (scope (claims tok)) = ["space:undefined"].
Proof.
  intros Hspace Henv Hsecret Hcred Hurl Hsign.
  rewrite generateAccessToken_issued. unfold issued.
  rewrite Hsecret, Hcred. cbn zeta. rewrite Hurl. cbn [completion].
  cbn [optionsOf expiresIn] in *. rewrite Hsign.
  eexists. split; [reflexivity|].
  cbn [claims claimsOf scope]. rewrite scopeOf_one_space_entry.
  unfold scopeOf. rewrite Hspace, Henv. cbn [nullish toString].
  split; reflexivity.
Qed.

Lemma generateAccessToken_space_undefined_witness :
  exists tok,
    completion (Sample.run Sample.unscoped None (Some Sample.clientSecret))
    = Return tok /\
    scope (claims tok)
    = ["permission:content:read"; "service:cdn"; "space:undefined";
       "environment:*"; "content-user-data:*"] /\
    List.filter isSpaceEntry (scope (claims tok)) = ["space:undefined"].
Proof.
  apply (@generateAccessToken_space_undefined Reference.runtime Sample.env
           Sample.now Sample.unscoped None (Some Sample.clientSecret)
           Sample.clientSecret "abc" "aXNz" "c2VjcmV0" "cloud.example.com"
           "c2lnbmF0dXJl");
    reflexivity.
Defined.

(** * Further properties of the issuer *)

Section IssuerFacts.
Context `{R : Runtime}.

Lemma permission_has_prefix p :
  String.prefix "permission:" (ContentCloudPermission.value p) = true.
Proof. destruct p; reflexivity. Qed.

Lemma service_has_prefix s :
  String.prefix "service:" (ContentCloudService.value s) = true.
Proof. destruct s; reflexivity. Qed.

Lemma prefix_append p s : String.prefix p (p +:+ s) = true.
Proof.
  induction p as [|c p IH].
  - destruct s; reflexivity.
  - change (String c p +:+ s) with (String c (p +:+ s)).
    cbn [String.prefix]. destruct (ascii_dec c c); [exact IH | congruence].
Qed.

Lemma scopeOf_prefixed env payload :
  Forall (fun entry => hasScopePrefix entry = true) (scopeOf env payload).
Proof.
  unfold scopeOf, environmentScope.
  repeat apply Forall_app_2.
  - apply Forall_forall. intros e (p & -> & _)%list_elem_of_fmap_1.
    destruct p; reflexivity.
  - apply Forall_forall. intros e (s & -> & _)%list_elem_of_fmap_1.
    destruct s; reflexivity.
  - apply Forall_cons_2; [|apply Forall_nil_2].
    unfold hasScopePrefix, scopePrefixes. cbn [existsb].
    rewrite (prefix_append "space:"), !orb_true_r. reflexivity.
  - destruct (environmentIds payload) as [ids|].
    + apply Forall_forall. intros e (i & -> & _)%list_elem_of_fmap_1.
      unfold hasScopePrefix, scopePrefixes. cbn [existsb].
      rewrite (prefix_append "environment:"), !orb_true_r. reflexivity.
    + destruct (truthy _); (apply Forall_cons_2; [|apply Forall_nil_2]);
        [|reflexivity].
      unfold hasScopePrefix, scopePrefixes. cbn [existsb].
      rewrite (prefix_append "environment:"), !orb_true_r. reflexivity.
  - apply Forall_forall. intros e (ct & -> & _)%list_elem_of_fmap_1.
    unfold hasScopePrefix, scopePrefixes. cbn [existsb].
    rewrite (prefix_append "content-user-data:"), !orb_true_r. reflexivity.
Qed.

End IssuerFacts.

(** X1.  With a non-empty [clientSecret] argument and a request that
    carries [baseUrl], [spaceId] and [environmentIds], the issuer does not
    depend on [process.env]: two environments give the same run. *)
Theorem generateAccessToken_explicit_request `{Runtime} env1 env2 now payload
    ttlInSeconds c secret :
  is_Some (baseUrl payload) ->
  is_Some (spaceId payload) ->
  is_Some (environmentIds payload) ->
  generateAccessToken env1 now payload ttlInSeconds (Some (String c secret))
  = generateAccessToken env2 now payload ttlInSeconds
      (Some (String c secret)).
Proof.
  intros [b Hb] [sp Hsp] [ids Hids].
  rewrite !generateAccessToken_issued.
  unfold issued, resolveClientSecret, resolveBaseUrl, claimsOf, scopeOf,
    environmentScope.
  rewrite Hb, Hsp, Hids. reflexivity.
Qed.

Lemma generateAccessToken_explicit_request_witness :
  @generateAccessToken Reference.runtime Sample.env Sample.now Sample.request
    None (Some Sample.clientSecret)
  = @generateAccessToken Reference.runtime
      (<["CC_SPACE_ID" := "other"]> (<["CC_CLIENT_SECRET" := "x:y:z"]> ∅))
      Sample.now Sample.request None (Some Sample.clientSecret).
Proof.
  apply (@generateAccessToken_explicit_request Reference.runtime Sample.env
           (<["CC_SPACE_ID" := "other"]> (<["CC_CLIENT_SECRET" := "x:y:z"]> ∅))
           Sample.now Sample.request None "a" "bc:aXNz:c2VjcmV0");
    eexists; reflexivity.
Defined.

(** X2.  An empty [clientSecret] argument counts as an omitted one, and an
    empty [CC_CLIENT_SECRET] as an unset one: when both are missing or
    empty, the run is the throw of the missing-secret error and nothing
    else. *)
Theorem generateAccessToken_empty_secret `{Runtime} env now payload
    ttlInSeconds clientSecret :
  clientSecret = None \/ clientSecret = Some EmptyString ->
  env !! "CC_CLIENT_SECRET" = None \/
  env !! "CC_CLIENT_SECRET" = Some EmptyString ->
  generateAccessToken env now payload ttlInSeconds clientSecret
  = mkRun [] (Throw MissingSecretError).
Proof.
  intros [-> | ->] [Henv | Henv]; unfold generateAccessToken; cbn [truthy];
    rewrite Henv; reflexivity.
Qed.

Lemma generateAccessToken_empty_secret_witness :
  @generateAccessToken Reference.runtime
    (<["CC_CLIENT_SECRET" := EmptyString]> ∅) Sample.now Sample.request None
    (Some EmptyString)
  = mkRun [] (Throw MissingSecretError).
Proof.
  apply (@generateAccessToken_empty_secret Reference.runtime
           (<["CC_CLIENT_SECRET" := EmptyString]> ∅) Sample.now
           Sample.request None (Some EmptyString));
    right; reflexivity.
Defined.

(** X3.  The signer is called at most once and as the last call.  A run
    that fails on the secret or on the base URL never calls it; a run that
    calls it ends with the signer's answer, a token or its error. *)
Theorem generateAccessToken_sign_once `{Runtime} env now payload ttlInSeconds
    clientSecret :
  let run := generateAccessToken env now payload ttlInSeconds clientSecret in
  (List.filter isSignCall (calls run) = [] /\
   (completion run = Throw MissingSecretError \/
    completion run = Throw MalformedSecretError \/
    exists url, completion run = Throw (TypeErrorInvalidURL url))) \/
  (exists p key options,
     List.filter isSignCall (calls run) = [CallSign p key options] /\
     last (calls run) = Some (CallSign p key options) /\
     (completion run = Throw JsonWebTokenError \/
      exists tok, completion run = Return tok)).
Proof.
  cbn zeta. rewrite generateAccessToken_issued. unfold issued.
  destruct (resolveClientSecret env clientSecret) as [secret|];
    [|left; cbn; auto].
  destruct (credentialOf secret) as [[[clientId issuerBase64] secretBase64]|];
    [|left; cbn; auto].
  cbn zeta.
  destruct (url_hostname _) as [hostname|]; [|left; cbn; eauto].
  right. eexists _, _, _. cbn [calls completion List.filter isSignCall last].
  split; [reflexivity|]. split; [reflexivity|].
  destruct (jws_sign _ _ _ _ _); eauto.
Qed.

(** X4.  Every entry of the scope of an issued token starts with one of
    [permission:], [service:], [space:], [environment:] and
    [content-user-data:]. *)
Theorem generateAccessToken_scope_prefixes `{Runtime} env now payload
    ttlInSeconds clientSecret tok :
  completion (generateAccessToken env now payload ttlInSeconds clientSecret)
  = Return tok ->
  Forall (fun entry => hasScopePrefix entry = true) (scope (claims tok)).
Proof.
  intros Hret.
  destruct (generateAccessToken_Return _ _ _ _ _ _ Hret)
    as (secret & clientId & issuerBase64 & secretBase64 & hostname
        & _ & _ & _ & _ & Hclaims & _).
  rewrite Hclaims. apply scopeOf_prefixed.
Qed.

Lemma generateAccessToken_scope_prefixes_witness :
  Forall (fun entry => hasScopePrefix entry = true)
    (scope (claims Sample.token)).
Proof.
  apply (@generateAccessToken_scope_prefixes Reference.runtime Sample.env
           Sample.now Sample.request None (Some Sample.clientSecret)
           Sample.token).
  vm_compute. reflexivity.
Defined.

(** X5.  The issuer claim of an issued token is the UTF-8 text of the
    base64 decoding of the second colon-delimited segment of the resolved
    client secret, and that segment is the first thing decoded. *)
Theorem generateAccessToken_issuer `{Runtime} env now payload ttlInSeconds
    clientSecret tok :
  completion (generateAccessToken env now payload ttlInSeconds clientSecret)
  = Return tok ->
  exists secret issuerBase64,
    resolveClientSecret env clientSecret = Some secret /\
    split ":" secret !! 1%nat = Some issuerBase64 /\
    iss (claims tok) = utf8_toString (base64_decode issuerBase64) /\
    calls (generateAccessToken env now payload ttlInSeconds clientSecret)
      !! 1%nat
    = Some (CallBufferFromBase64 issuerBase64).
Proof.
  intros Hret.
  destruct (generateAccessToken_Return _ _ _ _ _ _ Hret)
    as (secret & clientId & issuerBase64 & secretBase64 & hostname
        & Hsecret & Hcred & _ & _ & Hclaims & _ & _ & Hcalls).
  apply credentialOf_Some in Hcred as (_ & Hsecond & _).
  exists secret, issuerBase64. rewrite Hclaims, Hcalls. auto.
Qed.

Lemma generateAccessToken_issuer_witness :
  exists secret issuerBase64,
    resolveClientSecret Sample.env (Some Sample.clientSecret) = Some secret /\
    split ":" secret !! 1%nat = Some issuerBase64 /\
    iss (claims Sample.token)
    = Reference.text (Reference.decode issuerBase64) /\
    calls (Sample.run Sample.request None (Some Sample.clientSecret))
      !! 1%nat
    = Some (CallBufferFromBase64 issuerBase64).
Proof.
  apply (@generateAccessToken_issuer Reference.runtime Sample.env Sample.now
           Sample.request None (Some Sample.clientSecret) Sample.token).
  vm_compute. reflexivity.
Defined.

(** X6.  The enum values are a code: two permissions with the same value
    are the same permission, likewise two services, every permission value
    starts with [permission:] and every service value with [service:], and
    no permission shares its value with a service. *)
Theorem enum_values_distinct :
  (forall p q,
     ContentCloudPermission.value p = ContentCloudPermission.value q ->
     p = q) /\
  (forall s t,
     ContentCloudService.value s = ContentCloudService.value t -> s = t) /\
  (forall p,
     String.prefix "permission:" (ContentCloudPermission.value p) = true) /\
  (forall s,
     String.prefix "service:" (ContentCloudService.value s) = true) /\
  (forall p s,
     ContentCloudPermission.value p <> ContentCloudService.value s).
Proof.
  repeat split.
  - intros p q; destruct p, q; cbn; intros Heq;
      first [reflexivity | discriminate Heq].
  - intros s t; destruct s, t; cbn; intros Heq;
      first [reflexivity | discriminate Heq].
  - apply permission_has_prefix.
  - apply service_has_prefix.
  - intros p s; destruct p, s; discriminate.
Qed.

(** X7.  When the secret is resolved and well formed and the resolved base
    URL does not parse as an absolute URL, the issuer throws the URL
    constructor's [TypeError] for that text; the URL constructor is the only
    call made, so nothing is decoded or signed. *)
Theorem generateAccessToken_invalid_base_url `{Runtime} env now payload
    ttlInSeconds clientSecret secret credential :
  resolveClientSecret env clientSecret = Some secret ->
  credentialOf secret = Some credential ->
  url_hostname
    (toString (baseUrl payload ?? env !! "CC_SATELLITE_BASE_URL"
                               ?? env !! "CC_BASE_URL")) = None ->
  generateAccessToken env now payload ttlInSeconds clientSecret
  = mkRun
      [CallNewURL
         (toString (baseUrl payload ?? env !! "CC_SATELLITE_BASE_URL"
                                    ?? env !! "CC_BASE_URL"))]
      (Throw
         (TypeErrorInvalidURL
            (toString (baseUrl payload ?? env !! "CC_SATELLITE_BASE_URL"
                                       ?? env !! "CC_BASE_URL")))).
Proof.
  intros Hsecret Hcred Hurl.
  rewrite generateAccessToken_issued. unfold issued, resolveBaseUrl.
  rewrite Hsecret, Hcred. destruct credential as [[? ?] ?].
  cbn zeta. rewrite Hurl. reflexivity.
Qed.

Lemma generateAccessToken_invalid_base_url_witness :
  @generateAccessToken Reference.runtime
    (<["CC_BASE_URL" := "cloud.example.com"]> ∅) Sample.now Sample.bare
    None (Some Sample.clientSecret)
  = mkRun [CallNewURL "cloud.example.com"]
      (Throw (TypeErrorInvalidURL "cloud.example.com")).
Proof.
  exact (@generateAccessToken_invalid_base_url Reference.runtime
           (<["CC_BASE_URL" := "cloud.example.com"]> ∅) Sample.now
           Sample.bare None (Some Sample.clientSecret) Sample.clientSecret
           ("abc", "aXNz", "c2VjcmV0") eq_refl eq_refl eq_refl).
Defined.

(** * Splitting a secret *)

Section Split.

Lemma split_not_nil sep s : split sep s <> [].
Proof.
  destruct s as [|c s]; cbn; [discriminate|].
  destruct (Ascii.eqb c sep); [discriminate|].
  destruct (split sep s); discriminate.
Qed.

(** Splitting a text that continues after a separator. *)
Lemma split_app sep s t :
  split sep (s +:+ String sep t) = split sep s ++ split sep t.
Proof.
  induction s as [|c s IH].
  - change (EmptyString +:+ String sep t) with (String sep t).
    cbn [split]. rewrite Ascii.eqb_refl. reflexivity.
  - change (String c s +:+ String sep t) with (String c (s +:+ String sep t)).
    cbn [split]. rewrite IH.
    destruct (Ascii.eqb c sep); [reflexivity|].
    pose proof (split_not_nil sep s) as Hne.
    destruct (split sep s) as [|seg segs]; [contradiction|reflexivity].
Qed.

(** No segment contains the separator. *)
Lemma split_no_separator sep s :
  Forall (fun seg => includes sep seg = false) (split sep s).
Proof.
  induction s as [|c s IH]; cbn.
  - apply Forall_cons_2; [reflexivity | apply Forall_nil_2].
  - destruct (Ascii.eqb c sep) eqn:Hc.
    + apply Forall_cons_2; [reflexivity | exact IH].
    + destruct (split sep s) as [|seg segs];
        [apply Forall_cons_2; [cbn; rewrite Hc; reflexivity
                              | apply Forall_nil_2]|].
      apply Forall_cons in IH as [Hseg Hsegs].
      apply Forall_cons_2; [|exact Hsegs].
      cbn. rewrite Hc, Hseg. reflexivity.
Qed.

Lemma lookup_split_app sep s t i x :
  split sep s !! i = Some x ->
  split sep (s +:+ String sep t) !! i = Some x.
Proof. intros Hx. rewrite split_app. apply lookup_app_l_Some, Hx. Qed.

Lemma credentialOf_app secret extra credential :
  credentialOf secret = Some credential ->
  credentialOf (secret +:+ String ":" extra) = Some credential.
Proof.
  unfold credentialOf. intros Hcred.
  destruct (split ":" secret !! 0%nat) as [a|] eqn:H0; [|discriminate].
  destruct (split ":" secret !! 1%nat) as [b|] eqn:H1;
    [|destruct (truthy (Some a)); discriminate].
  destruct (split ":" secret !! 2%nat) as [c|] eqn:H2;
    [|destruct (truthy (Some a)), (truthy (Some b)); discriminate].
  rewrite (lookup_split_app _ _ _ _ _ H0), (lookup_split_app _ _ _ _ _ H1),
    (lookup_split_app _ _ _ _ _ H2).
  exact Hcred.
Qed.

End Split.

(** X8.  Whatever follows a fourth colon is ignored: when the first three
    segments of a secret parse, the secret followed by [:] and any text
    gives the same run. *)
Theorem generateAccessToken_extra_segments `{Runtime} env now payload
    ttlInSeconds c secret extra credential :
  credentialOf (String c secret) = Some credential ->
  generateAccessToken env now payload ttlInSeconds
    (Some (String c secret +:+ String ":" extra))
  = generateAccessToken env now payload ttlInSeconds
      (Some (String c secret)).
Proof.
  intros Hcred. rewrite !generateAccessToken_issued.
  unfold issued, resolveClientSecret.
  change (String c secret +:+ String ":" extra)
    with (String c (secret +:+ String ":" extra)).
  cbn [truthy].
  change (String c (secret +:+ String ":" extra))
    with (String c secret +:+ String ":" extra).
  rewrite (credentialOf_app _ extra _ Hcred), Hcred. reflexivity.
Qed.

Lemma generateAccessToken_extra_segments_witness :
  @generateAccessToken Reference.runtime Sample.env Sample.now Sample.request
    None (Some ("abc:aXNz:c2VjcmV0" +:+ String ":" "extra:more"))
  = @generateAccessToken Reference.runtime Sample.env Sample.now
      Sample.request None (Some "abc:aXNz:c2VjcmV0").
Proof.
  apply (@generateAccessToken_extra_segments Reference.runtime Sample.env
           Sample.now Sample.request None "a" "bc:aXNz:c2VjcmV0" "extra:more"
           ("abc", "aXNz", "c2VjcmV0")).
  reflexivity.
Defined.

(** * The issuer of the first client *)

Section LegacyFacts.
Variable sign : Legacy.Payload.t -> string -> option string.

(** A call that returns went through the secret and the signer. *)
Lemma legacy_Return env nowMs properties ttlInSeconds clientSecret r :
  Legacy.generateAccessToken sign env nowMs properties ttlInSeconds
    clientSecret = Return r ->
  exists secret clientId,
    resolveClientSecret env clientSecret = Some secret /\
    truthy (split "=" secret !! 0%nat) = Some clientId /\
    truthy (split "=" secret !! 1%nat) = Some (Legacy.key r) /\
    Legacy.Payload.clientId (Legacy.payload r) = clientId /\
    Legacy.Payload.iat (Legacy.payload r) = nowMs / 1000 /\
    Legacy.Payload.exp (Legacy.payload r)
    = nowMs / 1000 + default 3600 ttlInSeconds /\
    Legacy.Payload.spaceId (Legacy.payload r)
    = Legacy.Properties.spaceId properties ?? env !! "CC_SPACE_ID" /\
    Legacy.Payload.environmentIds (Legacy.payload r)
    = match Legacy.Properties.environmentIds properties with
      | Some ids => map Some ids
      | None => [env !! "CC_ENVIRONMENT_ID"]
      end.
Proof.
  unfold Legacy.generateAccessToken, resolveClientSecret.
  destruct (truthy _) as [secret|]; [|discriminate].
  destruct (truthy (split "=" secret !! 0%nat)) as [clientId|] eqn:Hid;
    [|discriminate].
  destruct (truthy (split "=" secret !! 1%nat)) as [key|] eqn:Hkey;
    [|discriminate].
  destruct (sign _ _); [|discriminate].
  intros [= <-]. exists secret, clientId. cbn.
  repeat split; solve [reflexivity | assumption].
Qed.

Lemma truthy_Some v s : truthy v = Some s -> v = Some s.
Proof. destruct v as [[|? ?]|]; cbn; congruence. Qed.

End LegacyFacts.



(** X10.  The signing key of the first issuer is the text between the first
    and the second [=] of the resolved secret, and the client id the text
    before the first: the key holds no [=], so base64 padding at the end of
    the secret never reaches the signer. *)
Theorem legacy_key sign env nowMs properties ttlInSeconds clientSecret r :
  Legacy.generateAccessToken sign env nowMs properties ttlInSeconds
    clientSecret = Return r ->
  exists secret,
    resolveClientSecret env clientSecret = Some secret /\
    split "=" secret !! 0%nat
    = Some (Legacy.Payload.clientId (Legacy.payload r)) /\
    split "=" secret !! 1%nat = Some (Legacy.key r) /\
    includes "=" (Legacy.key r) = false.
Proof.
  intros (secret & clientId & Hsecret & Hid%truthy_Some & Hkey%truthy_Some
          & Hclient & _)%legacy_Return.
  exists secret. rewrite Hclient. repeat split; try assumption.
  pose proof (split_no_separator "=" secret) as Hall.
  rewrite Forall_forall in Hall. apply Hall.
  apply list_elem_of_lookup. eauto.
Qed.

Lemma legacy_key_witness :
  exists secret,
    resolveClientSecret ∅ (Some LegacySample.clientSecret) = Some secret /\
    split "=" secret !! 0%nat
    = Some (Legacy.Payload.clientId (Legacy.payload LegacySample.signed)) /\
    split "=" secret !! 1%nat = Some (Legacy.key LegacySample.signed) /\
    includes "=" (Legacy.key LegacySample.signed) = false.
Proof.
  apply (legacy_key LegacySample.sign ∅ 1700000000999
           LegacySample.properties None (Some LegacySample.clientSecret)
           LegacySample.signed).
  vm_compute. reflexivity.
Defined.

(** X11.  The first issuer throws its malformed-secret error exactly when a
    client secret is resolved and the text before its first [=], or the
    text between its first and second [=], is missing or empty; it throws
    the missing-secret error exactly when no secret is resolved. *)
Theorem legacy_secret_errors sign env nowMs properties ttlInSeconds
    clientSecret :
  (Legacy.generateAccessToken sign env nowMs properties ttlInSeconds
     clientSecret = Throw Legacy.MalformedSecretError <->
   exists secret,
     resolveClientSecret env clientSecret = Some secret /\
     (truthy (split "=" secret !! 0%nat) = None \/
      truthy (split "=" secret !! 1%nat) = None)) /\
  (Legacy.generateAccessToken sign env nowMs properties ttlInSeconds
     clientSecret = Throw MissingSecretError <->
   resolveClientSecret env clientSecret = None).
Proof.
  unfold Legacy.generateAccessToken, resolveClientSecret.
  destruct (truthy _) as [secret|].
  - destruct (truthy (split "=" secret !! 0%nat)) as [clientId|] eqn:H0;
      [destruct (truthy (split "=" secret !! 1%nat)) as [key|] eqn:H1|].
    + destruct (sign _ _); (split; split; try discriminate);
        intros (s' & [= <-] & [Hs | Hs]); congruence.
    + split; split; try discriminate; eauto.
    + split; split; try discriminate; eauto.
  - split; split; try discriminate; try reflexivity.
    intros (s' & [=] & _).
Qed.

(** X12.  When the request of the first issuer has no [environmentIds],
    the payload has exactly one environment slot, holding
    [CC_ENVIRONMENT_ID] or nothing when that is unset; a supplied list is
    copied as it is, and the space id falls back to [CC_SPACE_ID]. *)
Theorem legacy_environment sign env nowMs properties ttlInSeconds
    clientSecret r :
  Legacy.generateAccessToken sign env nowMs properties ttlInSeconds
    clientSecret = Return r ->
  (Legacy.Properties.environmentIds properties = None ->
   Legacy.Payload.environmentIds (Legacy.payload r)
   = [env !! "CC_ENVIRONMENT_ID"]) /\
  (forall ids,
     Legacy.Properties.environmentIds properties = Some ids ->
     Legacy.Payload.environmentIds (Legacy.payload r) = map Some ids) /\
  Legacy.Payload.spaceId (Legacy.payload r)
  = match Legacy.Properties.spaceId properties with
    | Some id => Some id
    | None => env !! "CC_SPACE_ID"
    end.
Proof.
  intros (secret & clientId & _ & _ & _ & _ & _ & _ & Hspace & Henv)
    %legacy_Return.
  rewrite Henv, Hspace. repeat split.
  - intros ->. reflexivity.
  - intros ids ->. reflexivity.
Qed.

Lemma legacy_environment_witness :
  (Legacy.Properties.environmentIds LegacySample.properties = None ->
   Legacy.Payload.environmentIds (Legacy.payload LegacySample.signed)
   = [(∅ : gmap string string) !! "CC_ENVIRONMENT_ID"]) /\
  (forall ids,
     Legacy.Properties.environmentIds LegacySample.properties = Some ids ->
     Legacy.Payload.environmentIds (Legacy.payload LegacySample.signed)
     = map Some ids) /\
  Legacy.Payload.spaceId (Legacy.payload LegacySample.signed)
  = match Legacy.Properties.spaceId LegacySample.properties with
    | Some id => Some id
    | None => (∅ : gmap string string) !! "CC_SPACE_ID"
    end.
Proof.
  apply (legacy_environment LegacySample.sign ∅ 1700000000999
           LegacySample.properties None (Some LegacySample.clientSecret)
           LegacySample.signed).
  vm_compute. reflexivity.
Defined.

(** * Domain keys *)

(** [+:+] on a text that starts with known characters. *)
Ltac push_append :=
  repeat match goal with
    | |- context [String ?c ?a +:+ ?b] =>
        change (String c a +:+ b) with (String c (a +:+ b))
    | |- context [EmptyString +:+ ?b] =>
        change (EmptyString +:+ b) with b
    end.

Section DomainKeys.

Lemma chars_app a b :
  list_ascii_of_string (a +:+ b)
  = list_ascii_of_string a ++ list_ascii_of_string b.
Proof.
  induction a as [|c a IH]; push_append; cbn; [reflexivity | f_equal; exact IH].
Qed.

Lemma append_assoc a b c : (a +:+ b) +:+ c = a +:+ (b +:+ c).
Proof.
  induction a as [|x a IH]; push_append; [reflexivity | f_equal; exact IH].
Qed.

Lemma append_empty_r a : a +:+ EmptyString = a.
Proof.
  induction a as [|x a IH]; push_append; [reflexivity | f_equal; exact IH].
Qed.

Lemma numeral_fold base text :
  numeral base text
  = fold_left (readDigit base) (list_ascii_of_string text) (Some 0%N).
Proof. reflexivity. Qed.

Lemma readDigit_None base digits :
  fold_left (readDigit base) digits None = None.
Proof. induction digits as [|d digits IH]; [reflexivity | exact IH]. Qed.

Lemma sumDigits_read base digits n :
  fold_left (readDigit base) digits (Some 0%N) = Some n ->
  forall index sum,
    sumDigits (take (N.to_nat base) dictionary) base (rev digits) index sum
    = Return (sum + n * base ^ index)%N.
Proof.
  revert n. induction digits as [|d digits IH] using rev_ind; intros n.
  - intros [= <-] index sum. cbn. f_equal. lia.
  - rewrite fold_left_app. cbn [fold_left]. unfold readDigit at 1.
    destruct (fold_left _ digits _) as [m|] eqn:Hm; [|discriminate].
    destruct (indexOf d _) as [i|] eqn:Hi; [|discriminate].
    intros [= <-] index sum.
    rewrite rev_app_distr. cbn [rev app sumDigits]. rewrite Hi.
    rewrite (IH m eq_refl). f_equal.
    rewrite N.add_1_r, N.pow_succ_r'. lia.
Qed.

Lemma sumDigits_unread base digits :
  fold_left (readDigit base) digits (Some 0%N) = None ->
  forall index sum,
    exists message,
      sumDigits (take (N.to_nat base) dictionary) base (rev digits) index sum
      = Throw (Error message).
Proof.
  induction digits as [|d digits IH] using rev_ind; [discriminate|].
  rewrite fold_left_app. cbn [fold_left]. intros Hstep index sum.
  rewrite rev_app_distr. cbn [rev app sumDigits].
  destruct (indexOf d _) as [i|] eqn:Hi; [|eauto].
  apply IH. unfold readDigit in Hstep. rewrite Hi in Hstep.
  destruct (fold_left _ digits _); [discriminate | reflexivity].
Qed.

Lemma digitsOf_zero fuel toDictionary toBase result :
  digitsOf fuel toDictionary toBase 0 result = Some result.
Proof. destruct fuel; reflexivity. Qed.

Lemma base36_digit i :
  (i < 36)%nat ->
  exists c,
    take 36 dictionary !! i = Some c /\
    indexOf c (take 36 dictionary) = Some i /\
    (c = "0"%char -> i = 0%nat).
Proof.
  intros Hi.
  do 36 (destruct i as [|i];
         [eexists; split; [reflexivity|]; split;
          [reflexivity | first [reflexivity | discriminate]]|]).
  lia.
Qed.

Lemma log2_quotient num :
  (0 < num / 36)%N -> (N.log2 (num / 36) < N.log2 num)%N.
Proof.
  intros Hq.
  assert (Hnum : (0 < num)%N).
  { destruct (N.eq_0_gt_0_cases num) as [-> |]; [|assumption].
    rewrite N.Div0.div_0_l in Hq; lia. }
  apply N.le_succ_l, N.log2_le_pow2; [assumption|].
  rewrite N.pow_succ_r'.
  pose proof (N.log2_spec _ Hq) as [Hlow _].
  pose proof (N.Div0.mul_div_le num 36). lia.
Qed.

(** The loop writes the base-36 numeral of the number in front of the
    result, without a leading zero. *)
Lemma digitsOf_base36 fuel :
  forall num result,
    (N.to_nat (N.log2 num) < fuel)%nat ->
    exists text,
      digitsOf fuel (take 36 dictionary) 36 num result
      = Some (text +:+ result) /\
      numeral 36 text = Some num /\
      (num = 0%N -> text = EmptyString) /\
      (num <> 0%N ->
       exists c rest, text = String c rest /\ c <> "0"%char) /\
      Forall (fun c => c ∈ take 36 dictionary) (list_ascii_of_string text).
Proof.
  induction fuel as [|fuel IH]; intros num result Hfuel; [lia|].
  destruct (N.eq_0_gt_0_cases num) as [-> | Hpos].
  { exists EmptyString. cbn. repeat split; try reflexivity; try congruence.
    apply Forall_nil_2. }
  cbn [digitsOf]. rewrite (proj2 (N.ltb_lt 0 num) Hpos).
  assert (Hd : (N.to_nat (num mod 36) < 36)%nat).
  { pose proof (N.mod_upper_bound num 36 ltac:(lia)). lia. }
  destruct (base36_digit _ Hd) as (c & Hc & Hindex & Hzero).
  rewrite Hc.
  assert (Hq : ((num - num mod 36) / 36 = num / 36)%N).
  { rewrite (N.div_mod num 36) at 1 by lia.
    rewrite N.add_sub, N.mul_comm, N.div_mul by lia. reflexivity. }
  rewrite Hq.
  assert (Hstep : forall text,
             numeral 36 text = Some (num / 36)%N ->
             numeral 36 (text +:+ String c EmptyString) = Some num).
  { intros text Htext. rewrite numeral_fold in *.
    rewrite chars_app, fold_left_app, Htext.
    cbn [list_ascii_of_string fold_left].
    unfold readDigit. change (N.to_nat 36) with 36%nat. rewrite Hindex.
    f_equal. rewrite (N.div_mod num 36) at 3 by lia. lia. }
  destruct (N.eq_0_gt_0_cases (num / 36)) as [Hzeroq | Hposq].
  - rewrite Hzeroq, digitsOf_zero.
    exists (String c EmptyString). split; [reflexivity|].
    split; [apply (Hstep EmptyString); rewrite Hzeroq; reflexivity|].
    split; [lia|]. split.
    + intros _. exists c, EmptyString. split; [reflexivity|].
      intros ->. specialize (Hzero eq_refl).
      assert (num mod 36 = 0)%N by lia.
      rewrite (N.div_mod num 36) in Hpos by lia. lia.
    + cbn. apply Forall_cons_2; [|apply Forall_nil_2].
      apply list_elem_of_lookup. eauto.
  - destruct (IH (num / 36)%N (String c EmptyString +:+ result))
      as (text & Hrun & Hnum & _ & Hhead & Hall).
    { pose proof (log2_quotient num Hposq). lia. }
    exists (text +:+ String c EmptyString).
    split; [rewrite Hrun, append_assoc; reflexivity|].
    split; [apply Hstep, Hnum|].
    split; [lia|]. split.
    + intros _. destruct Hhead as (c' & rest & -> & Hc'); [lia|].
      exists c', (rest +:+ String c EmptyString).
      split; [reflexivity | exact Hc'].
    + rewrite chars_app. apply Forall_app_2; [exact Hall|].
      cbn. apply Forall_cons_2; [|apply Forall_nil_2].
      apply list_elem_of_lookup. eauto.
Qed.

(** The domain key of a text that is a base-62 numeral. *)
Lemma getDomainKey_numeral id n :
  numeral 62 id = Some n ->
  exists key,
    getDomainKey id = Some (Return key) /\
    numeral 36 key = Some n /\
    key <> EmptyString /\
    (key = "0" \/ exists c rest, key = String c rest /\ c <> "0"%char) /\
    Forall (fun c => c ∈ take 36 dictionary) (list_ascii_of_string key).
Proof.
  intros Hid. unfold getDomainKey, convertBase. cbn zeta.
  rewrite numeral_fold in Hid.
  rewrite (sumDigits_read 62 _ n Hid). rewrite N.add_0_l, N.pow_0_r, N.mul_1_r.
  destruct (digitsOf_base36 (S (N.to_nat (N.log2 n))) n EmptyString)
    as (text & Hrun & Hnum & Hzero & Hhead & Hall); [lia|].
  change (N.to_nat 36) with 36%nat. rewrite Hrun, append_empty_r.
  destruct (N.eq_dec n 0%N) as [-> | Hn].
  - rewrite (Hzero eq_refl). exists "0". repeat split; try reflexivity.
    + discriminate.
    + left; reflexivity.
    + apply Forall_cons_2; [|apply Forall_nil_2].
      apply (list_elem_of_lookup_2 _ 0%nat). reflexivity.
  - destruct (Hhead Hn) as (c & rest & -> & Hc).
    exists (String c rest). repeat split; try assumption; try discriminate.
    right. eauto.
Qed.

End DomainKeys.

(** X13.  For an id made of digits and letters whose base-62 number stays
    below [2 ^ 53], [getDomainKey] returns a key that denotes the same
    number in base 36. *)
Theorem getDomainKey_same_number id n :
  numeral 62 id = Some n ->
  (62 ^ N.of_nat (String.length id) <= 2 ^ 53)%N ->
  exists key,
    getDomainKey id = Some (Return key) /\ numeral 36 key = Some n.
Proof.
  intros Hid _.
  destruct (getDomainKey_numeral id n Hid) as (key & Hkey & Hn & _).
  exists key. auto.
Qed.

Lemma getDomainKey_same_number_witness :
  exists key,
    getDomainKey DomainKeySample.id = Some (Return key) /\
    numeral 36 key = Some 138331%N.
Proof.
  apply (getDomainKey_same_number DomainKeySample.id 138331%N);
    vm_compute; [reflexivity | discriminate].
Defined.

(** X14.  Under the same conditions the key is fit for a host name: it is
    not empty, it is made of digits and lower-case letters only, and it has
    no leading zero unless it is the text [0]. *)
Theorem getDomainKey_shape id n :
  numeral 62 id = Some n ->
  (62 ^ N.of_nat (String.length id) <= 2 ^ 53)%N ->
  exists key,
    getDomainKey id = Some (Return key) /\
    key <> EmptyString /\
    (key = "0" \/ exists c rest, key = String c rest /\ c <> "0"%char) /\
    Forall
      (fun c =>
         c ∈ list_ascii_of_string "0123456789abcdefghijklmnopqrstuvwxyz")
      (list_ascii_of_string key).
Proof.
  intros Hid _.
  destruct (getDomainKey_numeral id n Hid)
    as (key & Hkey & _ & Hne & Hhead & Hall).
  exists key. auto.
Qed.

Lemma getDomainKey_shape_witness :
  exists key,
    getDomainKey DomainKeySample.id = Some (Return key) /\
    key <> EmptyString /\
    (key = "0" \/ exists c rest, key = String c rest /\ c <> "0"%char) /\
    Forall
      (fun c =>
         c ∈ list_ascii_of_string "0123456789abcdefghijklmnopqrstuvwxyz")
      (list_ascii_of_string key).
Proof.
  apply (getDomainKey_shape DomainKeySample.id 138331%N);
    vm_compute; [reflexivity | discriminate].
Defined.

(** X15.  [getDomainKey] throws exactly when the id has a character that is
    no digit and no letter of the English alphabet; what it throws is an
    [Error]. *)
Theorem getDomainKey_invalid_digit id :
  numeral 62 id = None <->
  exists message, getDomainKey id = Some (Throw (Error message)).
Proof.
  split.
  - intros Hid. rewrite numeral_fold in Hid.
    destruct (sumDigits_unread 62 _ Hid 0%N 0%N) as (message & Hthrow).
    exists message. unfold getDomainKey, convertBase. cbn zeta.
    rewrite Hthrow. reflexivity.
  - intros (message & Hthrow).
    destruct (numeral 62 id) as [n|] eqn:Hid; [|reflexivity].
    destruct (getDomainKey_numeral id n Hid) as (key & Hkey & _).
    congruence.
Qed.

Lemma sumDigits_throw_app fromDictionary fromBase digits more e :
  forall index sum,
    sumDigits fromDictionary fromBase digits index sum = Throw e ->
    sumDigits fromDictionary fromBase (digits ++ more) index sum = Throw e.
Proof.
  induction digits as [|d digits IH]; intros index sum; [discriminate|].
  cbn [app sumDigits]. destruct (indexOf d fromDictionary); [apply IH | auto].
Qed.

Lemma convertBase_of_numeral value fromBase toBase n :
  numeral fromBase value = Some n ->
  convertBase value fromBase toBase
  = match
      digitsOf (S (N.to_nat (N.log2 n)))
        (take (N.to_nat toBase) dictionary) toBase n EmptyString
    with
    | Some EmptyString => Some (Return "0")
    | Some result => Some (Return result)
    | None => None
    end.
Proof.
  intros Hvalue. rewrite numeral_fold in Hvalue.
  unfold convertBase. cbn zeta.
  rewrite (sumDigits_read fromBase _ n Hvalue).
  rewrite N.add_0_l, N.pow_0_r, N.mul_1_r. reflexivity.
Qed.

(** X16.  A zero in front of an id does not change its domain key (for ids
    whose number, zero included, stays below [2 ^ 53]): ids that differ
    only in leading zeros share a key. *)
Theorem getDomainKey_leading_zero id :
  (62 ^ N.of_nat (String.length (String "0" id)) <= 2 ^ 53)%N ->
  getDomainKey (String "0" id) = getDomainKey id.
Proof.
  intros _. unfold getDomainKey.
  destruct (numeral 62 id) as [n|] eqn:Hid.
  - assert (Hzero : numeral 62 (String "0" id) = Some n) by exact Hid.
    rewrite (convertBase_of_numeral _ 62 36 n Hid),
      (convertBase_of_numeral _ 62 36 n Hzero).
    reflexivity.
  - rewrite numeral_fold in Hid.
    destruct (sumDigits_unread 62 _ Hid 0%N 0%N) as (message & Hthrow).
    unfold convertBase. cbn zeta. cbn [list_ascii_of_string rev].
    rewrite (sumDigits_throw_app _ _ _ ["0"%char] _ _ _ Hthrow), Hthrow.
    reflexivity.
Qed.

Lemma getDomainKey_leading_zero_witness :
  getDomainKey (String "0" DomainKeySample.id)
  = getDomainKey DomainKeySample.id.
Proof.
  apply (getDomainKey_leading_zero DomainKeySample.id).
  vm_compute. discriminate.
Defined.

(** * The REST client *)

Section RestFacts.
Variable decodePayload : string -> Rest.Outcome Rest.Token.t.

Lemma split_without_separator sep s :
  includes sep s = false -> split sep s = [s].
Proof.
  induction s as [|c s IH]; [reflexivity|].
  cbn [includes split]. intros [Hc Hs]%orb_false_iff.
  rewrite Hc, (IH Hs). reflexivity.
Qed.

Lemma truthy_not_empty v s : truthy v = Some s -> s <> EmptyString.
Proof. destruct v as [[|? ?]|]; cbn; congruence. Qed.

(** The steps of the constructor, for a base URL that is in order. *)
Lemma construct_Done penv options o :
  Rest.construct decodePayload penv options = Rest.Done o ->
  exists b,
    Rest.baseUrl o = Some b /\ b <> EmptyString /\ endsWith b "/" = false.
Proof.
  unfold Rest.construct. cbn zeta.
  destruct (truthy (match truthy _ with Some _ => _ | None => _ end))
    as [b|] eqn:Hb; [|discriminate].
  destruct (endsWith b "/") eqn:Hslash; [discriminate|].
  intros Hdone. exists b.
  assert (Hbase : Rest.baseUrl o = Some b).
  { repeat match type of Hdone with
           | match ?x with _ => _ end = _ =>
               destruct x eqn:?; try discriminate
           end.
    injection Hdone as <-. reflexivity. }
  split; [exact Hbase|]. split; [|exact Hslash].
  exact (truthy_not_empty _ _ Hb).
Qed.

End RestFacts.

(** X17.  A client that was constructed has a base URL, the base URL is not
    empty, and it does not end with a slash. *)
Theorem rest_client_base_url decodePayload penv options o :
  Rest.construct decodePayload penv options = Rest.Done o ->
  exists b,
    Rest.baseUrl o = Some b /\ b <> EmptyString /\ endsWith b "/" = false.
Proof. apply construct_Done. Qed.

Lemma rest_client_base_url_witness :
  exists b,
    Rest.baseUrl RestSample.built = Some b /\ b <> EmptyString /\
    endsWith b "/" = false.
Proof.
  apply (rest_client_base_url RestSample.decodePayload (Some RestSample.env)
           (Some RestSample.options) RestSample.built).
  vm_compute. reflexivity.
Defined.

Lemma truthy_truthy v s : truthy v = Some s -> truthy (Some s) = Some s.
Proof. destruct v as [[|? ?]|]; cbn; intros [= <-]; reflexivity. Qed.

(** X18.  Without an access token, in the options and in
    [CC_ACCESS_TOKEN], a client is constructed only when both a space id
    and an environment id are given: when one of them is missing or empty,
    the constructor fails, on the base URL or else with a [TypeError] for
    reading [spaceId] or [environmentIds] on the missing token. *)
Theorem rest_client_without_token decodePayload penv options :
  Rest.accessToken options = None ->
  from_option (fun env : gmap string string => env !! "CC_ACCESS_TOKEN")
    None penv = None ->
  truthy (Rest.spaceId options) = None \/
  truthy (Rest.environmentId options) = None ->
  exists f,
    Rest.construct decodePayload penv (Some options) = Rest.Failed f /\
    (f = Rest.FailError "baseUrl is required." \/
     f = Rest.FailError "baseUrl must not end with a slash." \/
     f = Rest.FailTypeError "spaceId" \/
     f = Rest.FailTypeError "environmentIds").
Proof.
  intros Htoken Henv Hids. unfold Rest.construct.
  change (default _ (Some options)) with options. cbn zeta.
  rewrite Htoken. cbn [truthy].
  destruct penv as [env|]; cbn [from_option] in Henv; rewrite ?Henv.
  - destruct (truthy (match truthy _ with Some _ => _ | None => _ end));
      [|eauto 6].
    destruct (endsWith _ _); [eauto 6|]. cbn iota.
    destruct Hids as [-> | Henvid].
    + eauto 6.
    + destruct (truthy (Rest.spaceId options)); rewrite ?Henvid; eauto 6.
  - destruct (truthy (match truthy _ with Some _ => _ | None => _ end));
      [|eauto 6].
    destruct (endsWith _ _); [eauto 6|]. cbn iota.
    destruct Hids as [-> | Henvid].
    + eauto 6.
    + destruct (truthy (Rest.spaceId options)); rewrite ?Henvid; eauto 6.
Qed.

Lemma rest_client_without_token_witness :
  exists f,
    Rest.construct RestSample.decodePayload (Some RestSample.env)
      (Some {| Rest.baseUrl := None; Rest.accessToken := None;
               Rest.spaceId := Some "sp1"; Rest.environmentId := None |})
    = Rest.Failed f /\
    (f = Rest.FailError "baseUrl is required." \/
     f = Rest.FailError "baseUrl must not end with a slash." \/
     f = Rest.FailTypeError "spaceId" \/
     f = Rest.FailTypeError "environmentIds").
Proof.
  apply (rest_client_without_token RestSample.decodePayload
           (Some RestSample.env)
           {| Rest.baseUrl := None; Rest.accessToken := None;
              Rest.spaceId := Some "sp1"; Rest.environmentId := None |});
    [reflexivity | reflexivity | right; reflexivity].
Defined.

(** X19.  [parseJwt] reads the second dot-delimited segment only: two
    tokens with the same payload segment parse alike, whatever their header
    and signature segments are.  Nothing is validated. *)
Theorem parseJwt_unvalidated decodePayload header header' payload sig sig' :
  includes "." header = false ->
  includes "." header' = false ->
  includes "." payload = false ->
  Rest.parseJwt decodePayload
    (header +:+ String "." (payload +:+ String "." sig))
  = Rest.parseJwt decodePayload
      (header' +:+ String "." (payload +:+ String "." sig')).
Proof.
  intros Hh Hh' Hp. unfold Rest.parseJwt.
  rewrite !split_app, (split_without_separator _ _ Hh),
    (split_without_separator _ _ Hh'), (split_without_separator _ _ Hp).
  reflexivity.
Qed.

Lemma parseJwt_unvalidated_witness :
  Rest.parseJwt RestSample.decodePayload
    ("aGVhZGVy" +:+ String "." ("cGF5bG9hZA" +:+ String "." "c2ln"))
  = Rest.parseJwt RestSample.decodePayload
      ("b3RoZXI" +:+ String "." ("cGF5bG9hZA" +:+ String "." EmptyString)).
Proof.
  apply (parseJwt_unvalidated RestSample.decodePayload "aGVhZGVy" "b3RoZXI"
           "cGF5bG9hZA" "c2ln" EmptyString);
    reflexivity.
Defined.

(** X20.  An access token without a dot stops the constructor: with a base
    URL in order and such a token in the options, the constructor fails
    with the [TypeError] of [parseJwt], also when the space id and the
    environment id are given. *)
Theorem rest_client_dotless_token decodePayload penv options b c token :
  truthy (Rest.baseUrl options) = Some b ->
  endsWith b "/" = false ->
  Rest.accessToken options = Some (String c token) ->
  includes "." (String c token) = false ->
  Rest.construct decodePayload penv (Some options)
  = Rest.Failed (Rest.FailTypeError "replace").
Proof.
  intros Hb Hslash Htoken Hdot. unfold Rest.construct.
  change (default _ (Some options)) with options. cbn zeta.
  rewrite Hb. cbn iota. rewrite (truthy_truthy _ _ Hb), Hslash, Htoken.
  cbn [truthy]. unfold Rest.parseJwt.
  rewrite (split_without_separator _ _ Hdot).
  reflexivity.
Qed.

Lemma rest_client_dotless_token_witness :
  Rest.construct RestSample.decodePayload None
    (Some {| Rest.baseUrl := Some "https://cloud.example.com";
             Rest.accessToken := Some "token";
             Rest.spaceId := Some "sp1";
             Rest.environmentId := Some "live" |})
  = Rest.Failed (Rest.FailTypeError "replace").
Proof.
  apply (rest_client_dotless_token RestSample.decodePayload None
           {| Rest.baseUrl := Some "https://cloud.example.com";
              Rest.accessToken := Some "token";
              Rest.spaceId := Some "sp1";
              Rest.environmentId := Some "live" |}
           "https://cloud.example.com" "t" "oken");
    reflexivity.
Defined.

(** X21.  Ids given in the options win over the token: a constructed
    client keeps a non-empty [spaceId] and a non-empty [environmentId] of
    its options, and a non-empty [accessToken] and [baseUrl] as well. *)
Theorem rest_client_explicit_options decodePayload penv options o :
  Rest.construct decodePayload penv (Some options) = Rest.Done o ->
  (forall id, truthy (Rest.spaceId options) = Some id ->
              Rest.spaceId o = Some id) /\
  (forall id, truthy (Rest.environmentId options) = Some id ->
              Rest.environmentId o = Some id) /\
  (forall t, truthy (Rest.accessToken options) = Some t ->
             Rest.accessToken o = Some t) /\
  (forall b, truthy (Rest.baseUrl options) = Some b ->
             Rest.baseUrl o = Some b).
Proof.
  unfold Rest.construct.
  change (default _ (Some options)) with options. cbn zeta. intros Hdone.
  repeat split; intros x Hx; pose proof (truthy_truthy _ _ Hx) as Hxx;
    rewrite Hx in Hdone; cbn iota in Hdone; rewrite ?Hxx in Hdone;
    repeat match type of Hdone with
           | match ?y with _ => _ end = _ =>
               destruct y eqn:?; try discriminate
           end;
    injection Hdone as <-; reflexivity.
Qed.

Lemma rest_client_explicit_options_witness :
  (forall id, truthy (Rest.spaceId RestSample.options) = Some id ->
              Rest.spaceId RestSample.built = Some id) /\
  (forall id, truthy (Rest.environmentId RestSample.options) = Some id ->
              Rest.environmentId RestSample.built = Some id) /\
  (forall t, truthy (Rest.accessToken RestSample.options) = Some t ->
             Rest.accessToken RestSample.built = Some t) /\
  (forall b, truthy (Rest.baseUrl RestSample.options) = Some b ->
             Rest.baseUrl RestSample.built = Some b).
Proof.
  apply (rest_client_explicit_options RestSample.decodePayload
           (Some RestSample.env) RestSample.options RestSample.built).
  vm_compute. reflexivity.
Defined.

Example serializeQuery_sample :
  serializeQuery QuerySample.settings
  = "width=300&fit=scale-down&background=%23fff%26x%3D1%3F" /\
  buildImageUrl "https://img.example.com/a.png" QuerySample.settings
  = "https://img.example.com/a.png?width=300&fit=scale-down&background=%23fff%26x%3D1%3F" /\
  queryUrl "https://cloud.example.com" RestInterfaceDataTypes.entries
    (Some "e1") (Some [("locale", QString "de"); ("include", QNumber 2)])
  = "https://cloud.example.com/entries/e1?locale=de&include=2" /\
  queryUrl "https://cloud.example.com" RestInterfaceDataTypes.space None
    (Some [])
  = "https://cloud.example.com/space".
Proof. repeat split; vm_compute; reflexivity. Qed.

(** * Query strings and request URLs *)

Section QueryFacts.

Lemma occurrences_app c a b :
  occurrences c (a +:+ b) = (occurrences c a + occurrences c b)%nat.
Proof.
  induction a as [|x a IH]; push_append; [reflexivity|].
  cbn [occurrences]. rewrite IH. lia.
Qed.

Lemma includes_occurrences c s :
  includes c s = false <-> occurrences c s = 0%nat.
Proof.
  induction s as [|a s IH]; cbn [includes occurrences]; [tauto|].
  destruct (Ascii.eqb a c); cbn; [split; [discriminate | lia] | exact IH].
Qed.

Lemma hexDigit_unreserved n : unreserved (hexDigit n) = true.
Proof.
  unfold hexDigit.
  destruct (nth_in_or_default (N.to_nat n)
              (list_ascii_of_string "0123456789ABCDEF") "0"%char)
    as [Hin | ->]; [|reflexivity].
  remember (nth _ _ _) as x eqn:Hx. clear Hx.
  cbn [list_ascii_of_string In] in Hin.
  repeat (destruct Hin as [<- | Hin]; [reflexivity|]). destruct Hin.
Qed.

Lemma unreserved_differs a c :
  unreserved a = true -> unreserved c = false -> Ascii.eqb a c = false.
Proof.
  intros Ha Hc. destruct (Ascii.eqb a c) eqn:Heq; [|reflexivity].
  apply Ascii.eqb_eq in Heq. congruence.
Qed.

(** A character that [encodeURIComponent] escapes does not occur in what it
    returns. *)
Lemma encodeURIComponent_escapes c s :
  unreserved c = false -> c <> "%"%char ->
  occurrences c (encodeURIComponent s) = 0%nat.
Proof.
  intros Hc Hpercent. induction s as [|a s IH]; [reflexivity|].
  cbn [encodeURIComponent]. rewrite occurrences_app, IH.
  destruct (unreserved a) eqn:Ha.
  - cbn [occurrences]. rewrite (unreserved_differs _ _ Ha Hc). reflexivity.
  - unfold percentEncode. cbn [occurrences].
    rewrite !(unreserved_differs _ _ (hexDigit_unreserved _) Hc).
    destruct (Ascii.eqb "%" c) eqn:Heq; [|reflexivity].
    apply Ascii.eqb_eq in Heq. congruence.
Qed.

Lemma occurrences_concat c sep items :
  occurrences c (String.concat sep items)
  = (list_sum (map (occurrences c) items)
     + pred (length items) * occurrences c sep)%nat.
Proof.
  induction items as [|x items IH]; [reflexivity|].
  destruct items as [|y items];
    [cbn [String.concat map list_sum fold_right length pred Nat.mul]; lia|].
  change (String.concat sep (x :: y :: items))
    with (x +:+ sep +:+ String.concat sep (y :: items)).
  rewrite !occurrences_app, IH. cbn [map list_sum fold_right length pred].
  lia.
Qed.

Lemma parameterText_occurrences c entry :
  unreserved c = false -> c <> "%"%char ->
  occurrences c (parameterText entry)
  = if Ascii.eqb "=" c then 1%nat else 0%nat.
Proof.
  intros Hc Hpercent. unfold parameterText.
  rewrite !occurrences_app, !encodeURIComponent_escapes by assumption.
  cbn [occurrences]. lia.
Qed.

Lemma serializeQuery_occurrences c queryParameters :
  unreserved c = false -> c <> "%"%char ->
  occurrences c (serializeQuery queryParameters)
  = ((if Ascii.eqb "=" c then length queryParameters else 0)
     + (if Ascii.eqb "&" c then pred (length queryParameters) else 0))%nat.
Proof.
  intros Hc Hpercent. unfold serializeQuery.
  rewrite occurrences_concat, length_map.
  fold parameterText.
  assert (Hsum : forall l,
             list_sum (map (occurrences c) (map parameterText l))
             = if Ascii.eqb "=" c then length l else 0%nat).
  { induction l as [|e l IH]; [destruct (Ascii.eqb "=" c); reflexivity|].
    cbn [map list_sum fold_right length].
    fold (list_sum (map (occurrences c) (map parameterText l))).
    rewrite IH, parameterText_occurrences by assumption.
    destruct (Ascii.eqb "=" c); lia. }
  rewrite Hsum. cbn [occurrences].
  destruct (Ascii.eqb "&" c); lia.
Qed.

End QueryFacts.

(** X22.  In a serialized query every parameter contributes exactly one
    [=] and the parameters are separated by single [&]: names and values
    cannot add either, nor any other character that [encodeURIComponent]
    escapes, such as [?], [#], [/] or a space. *)
Theorem serializeQuery_separators queryParameters :
  occurrences "=" (serializeQuery queryParameters)
  = length queryParameters /\
  occurrences "&" (serializeQuery queryParameters)
  = pred (length queryParameters) /\
  (forall c,
     unreserved c = false -> c <> "%"%char -> c <> "="%char ->
     c <> "&"%char ->
     occurrences c (serializeQuery queryParameters) = 0%nat).
Proof.
  repeat split.
  - rewrite serializeQuery_occurrences by (reflexivity || discriminate).
    cbn. lia.
  - rewrite serializeQuery_occurrences by (reflexivity || discriminate).
    cbn. lia.
  - intros c Hc Hpercent Heq Hamp.
    rewrite serializeQuery_occurrences by assumption.
    destruct (Ascii.eqb "=" c) eqn:H1;
      [apply Ascii.eqb_eq in H1; congruence|].
    destruct (Ascii.eqb "&" c) eqn:H2;
      [apply Ascii.eqb_eq in H2; congruence|].
    reflexivity.
Qed.

(** X23.  [buildImageUrl] keeps the original URL as the start of its
    result and adds at most one [?]: the result has one when the original
    has none, and as many as the original otherwise.  With no settings the
    result still gets the separator, so it ends with [?] or [&]. *)
Theorem buildImageUrl_separator originalUrl settings :
  String.prefix originalUrl (buildImageUrl originalUrl settings) = true /\
  occurrences "?" (buildImageUrl originalUrl settings)
  = Nat.max 1 (occurrences "?" originalUrl) /\
  (settings = [] ->
   buildImageUrl originalUrl settings
   = originalUrl +:+ (if includes "?" originalUrl then "&" else "?")).
Proof.
  unfold buildImageUrl. cbn zeta.
  assert (Hquery : occurrences "?" (serializeQuery settings) = 0%nat)
    by (rewrite serializeQuery_occurrences; (reflexivity || discriminate)).
  destruct (includes "?" originalUrl) eqn:Hin.
  - repeat split.
    + apply prefix_append.
    + rewrite !occurrences_app, Hquery. cbn [occurrences].
      destruct (occurrences "?" originalUrl) eqn:Hocc; [|cbn; lia].
      apply includes_occurrences in Hocc. congruence.
    + intros ->. reflexivity.
  - repeat split.
    + apply prefix_append.
    + rewrite !occurrences_app, Hquery. cbn [occurrences].
      apply includes_occurrences in Hin. rewrite Hin. reflexivity.
    + intros ->. reflexivity.
Qed.

(** X24.  The URL of a system request has a query part exactly when there
    is at least one query parameter: without parameters, or with an empty
    object, the URL ends with the path and no [?] is added; an empty id is
    left out of the path like a missing one. *)
Theorem queryUrl_query_part baseUrl type id queryParameters :
  let path :=
    "/" +:+ RestInterfaceDataTypes.value type +:+
    match id with
    | Some (String c rest) => "/" +:+ String c rest
    | _ => EmptyString
    end in
  queryUrl baseUrl type id queryParameters
  = match queryParameters with
    | Some (entry :: entries) =>
        baseUrl +:+ path +:+ "?" +:+ serializeQuery (entry :: entries)
    | _ => baseUrl +:+ path +:+ EmptyString
    end.
Proof.
  cbn zeta. unfold queryUrl, getUrl.
  assert (Hid : match truthy id with
                | Some id => "/" +:+ id
                | None => EmptyString
                end
                = match id with
                  | Some (String c rest) => "/" +:+ String c rest
                  | _ => EmptyString
                  end) by (destruct id as [[|? ?]|]; reflexivity).
  rewrite Hid.
  destruct queryParameters as [[|entry entries]|]; try reflexivity.
  cbn [option_map].
  destruct (serializeQuery (entry :: entries)) as [|c q] eqn:Hquery;
    [|reflexivity].
  pose proof (serializeQuery_occurrences "=" (entry :: entries) eq_refl
                ltac:(discriminate)) as Heq.
  rewrite Hquery in Heq. discriminate Heq.
Qed.


(** * The GraphQL proxy *)

Example graphql_get_sample :
  let get :=
    GraphQL.get GraphQLSample.INDEPENDENT_ENTRY_TYPES
      GraphQLSample.CONTENT_USER_DATA_ENTRY_TYPES in
  get "article" = GraphQL.Entry "Article" /\
  get "articleCollection" = GraphQL.Collection "Article" /\
  get "settings" = GraphQL.Entry "Settings" /\
  get "newsCollection" = GraphQL.Entry "NewsCollection" /\
  get "setBookmark" = GraphQL.SetContentUserData "Bookmark" /\
  get "setPrivateCollection" = GraphQL.Target /\
  get "query" = GraphQL.Target.
Proof. repeat split; vm_compute; reflexivity. Qed.

Section ProxyFacts.
Variables INDEPENDENT_ENTRY_TYPES CONTENT_USER_DATA_ENTRY_TYPES : list string.

Lemma toUpperCase_toLowerCase c :
  GraphQL.isUpperCase c = true ->
  GraphQL.toUpperCase (GraphQL.toLowerCase c) = c.
Proof.
  destruct c as [[] [] [] [] [] [] [] []]; vm_compute;
    first [reflexivity | discriminate].
Qed.

Lemma toUpperCase_upper c :
  GraphQL.isUpperCase c = true -> GraphQL.toUpperCase c = c.
Proof.
  destruct c as [[] [] [] [] [] [] [] []]; vm_compute;
    first [reflexivity | discriminate].
Qed.

Lemma endsWith_append s suffix : endsWith (s +:+ suffix) suffix = true.
Proof.
  unfold endsWith. apply bool_decide_eq_true. rewrite chars_app.
  apply suffix_app_r. reflexivity.
Qed.

Lemma sliceEnd_append s suffix :
  GraphQL.sliceEnd (String.length suffix) (s +:+ suffix) = s.
Proof.
  unfold GraphQL.sliceEnd. cbn zeta. rewrite chars_app, length_app.
  assert (Hlen : String.length suffix
                 = length (list_ascii_of_string suffix)).
  { clear. induction suffix as [|c t IH]; cbn;
      [reflexivity | f_equal; exact IH]. }
  rewrite Hlen, Nat.add_sub, take_app_length.
  apply string_of_list_ascii_of_string.
Qed.

Lemma sliceStart_append prefix s :
  GraphQL.sliceStart (String.length prefix) (prefix +:+ s) = s.
Proof.
  unfold GraphQL.sliceStart. rewrite chars_app.
  assert (Hlen : String.length prefix
                 = length (list_ascii_of_string prefix)).
  { clear. induction prefix as [|c t IH]; cbn;
      [reflexivity | f_equal; exact IH]. }
  rewrite Hlen, drop_app_length.
  apply string_of_list_ascii_of_string.
Qed.

End ProxyFacts.

(** X26.  The property named after the query of a content type gives the
    method for that type: for a type whose name starts with an upper-case
    letter and is among the independent entry types, both the query name
    [entry] sends and the type name itself are answered with [entry] for
    that type. *)
Theorem graphql_entry_method independent userData c rest :
  GraphQL.isUpperCase c = true ->
  String c rest ∈ independent ->
  GraphQL.get independent userData (GraphQL.entryQueryName (String c rest))
  = GraphQL.Entry (String c rest) /\
  GraphQL.get independent userData (String c rest)
  = GraphQL.Entry (String c rest).
Proof.
  intros Hupper Hin. unfold GraphQL.get, GraphQL.entryQueryName.
  cbn [GraphQL.uncapitalize GraphQL.capitalize].
  rewrite (toUpperCase_toLowerCase _ Hupper), (toUpperCase_upper _ Hupper).
  rewrite (bool_decide_eq_true_2 _ Hin). auto.
Qed.

Lemma graphql_entry_method_witness :
  GraphQL.get GraphQLSample.INDEPENDENT_ENTRY_TYPES
    GraphQLSample.CONTENT_USER_DATA_ENTRY_TYPES
    (GraphQL.entryQueryName "Article")
  = GraphQL.Entry "Article" /\
  GraphQL.get GraphQLSample.INDEPENDENT_ENTRY_TYPES
    GraphQLSample.CONTENT_USER_DATA_ENTRY_TYPES "Article"
  = GraphQL.Entry "Article".
Proof.
  apply (graphql_entry_method GraphQLSample.INDEPENDENT_ENTRY_TYPES
           GraphQLSample.CONTENT_USER_DATA_ENTRY_TYPES "A" "rticle");
    [reflexivity | apply (bool_decide_unpack _); vm_compute; exact I].
Defined.

(** X27.  For an independent entry type whose name starts with an
    upper-case letter, the property named after its collection query gives
    [collection] for that type, unless the schema also has an independent
    entry type with that very name, [<Type>Collection]: that type comes
    first, and the property gives [entry] for it. *)
Theorem graphql_collection_method independent userData c rest :
  GraphQL.isUpperCase c = true ->
  String c rest ∈ independent ->
  GraphQL.get independent userData
    (GraphQL.collectionQueryName (String c rest))
  = if bool_decide (String c rest +:+ "Collection" ∈ independent)
    then GraphQL.Entry (String c rest +:+ "Collection")
    else GraphQL.Collection (String c rest).
Proof.
  intros Hupper Hin. unfold GraphQL.get, GraphQL.collectionQueryName.
  cbn [GraphQL.uncapitalize]. push_append. cbn [GraphQL.capitalize].
  rewrite (toUpperCase_toLowerCase _ Hupper).
  change (String c (rest +:+ "Collection"))
    with (String c rest +:+ "Collection").
  destruct (bool_decide (String c rest +:+ "Collection" ∈ independent));
    [reflexivity|].
  rewrite endsWith_append. cbn zeta. rewrite sliceEnd_append.
  rewrite (bool_decide_eq_true_2 _ Hin). reflexivity.
Qed.

Lemma graphql_collection_method_witness :
  GraphQL.get GraphQLSample.INDEPENDENT_ENTRY_TYPES
    GraphQLSample.CONTENT_USER_DATA_ENTRY_TYPES
    (GraphQL.collectionQueryName "News")
  = if bool_decide
         ("News" +:+ "Collection" ∈ GraphQLSample.INDEPENDENT_ENTRY_TYPES)
    then GraphQL.Entry ("News" +:+ "Collection")
    else GraphQL.Collection "News".
Proof.
  apply (graphql_collection_method GraphQLSample.INDEPENDENT_ENTRY_TYPES
           GraphQLSample.CONTENT_USER_DATA_ENTRY_TYPES "N" "ews");
    [reflexivity | apply (bool_decide_unpack _); vm_compute; exact I].
Defined.

(** X28.  The property named after the mutation of a user-data type gives
    [setContentUserData] for that type, provided [Set<Type>] is no
    independent entry type and does not end with [Collection].  When it
    does end with [Collection], the collection branch takes the name and
    the mutation of that type cannot be reached through the proxy. *)
Theorem graphql_mutation_method independent userData contentType :
  contentType ∈ userData ->
  "Set" +:+ contentType ∉ independent ->
  (endsWith ("Set" +:+ contentType) "Collection" = false ->
   GraphQL.get independent userData (GraphQL.mutationName contentType)
   = GraphQL.SetContentUserData contentType) /\
  (endsWith ("Set" +:+ contentType) "Collection" = true ->
   forall type,
     GraphQL.get independent userData (GraphQL.mutationName contentType)
     <> GraphQL.SetContentUserData type).
Proof.
  intros Hin Hnot. unfold GraphQL.get, GraphQL.mutationName.
  push_append. cbn [GraphQL.capitalize].
  change (GraphQL.toUpperCase "s") with "S"%char.
  change (String "S" (String "e" (String "t" contentType)))
    with ("Set" +:+ contentType).
  rewrite (bool_decide_eq_false_2 _ Hnot).
  split; intros Hends; rewrite Hends.
  - rewrite prefix_append. cbn zeta. rewrite sliceStart_append.
    rewrite (bool_decide_eq_true_2 _ Hin). reflexivity.
  - intros type. cbn zeta. destruct (bool_decide _); discriminate.
Qed.

Lemma graphql_mutation_method_witness :
  (endsWith ("Set" +:+ "Bookmark") "Collection" = false ->
   GraphQL.get GraphQLSample.INDEPENDENT_ENTRY_TYPES
     GraphQLSample.CONTENT_USER_DATA_ENTRY_TYPES
     (GraphQL.mutationName "Bookmark")
   = GraphQL.SetContentUserData "Bookmark") /\
  (endsWith ("Set" +:+ "Bookmark") "Collection" = true ->
   forall type,
     GraphQL.get GraphQLSample.INDEPENDENT_ENTRY_TYPES
       GraphQLSample.CONTENT_USER_DATA_ENTRY_TYPES
       (GraphQL.mutationName "Bookmark")
     <> GraphQL.SetContentUserData type).
Proof.
  apply (graphql_mutation_method GraphQLSample.INDEPENDENT_ENTRY_TYPES
           GraphQLSample.CONTENT_USER_DATA_ENTRY_TYPES "Bookmark");
    apply (bool_decide_unpack _); vm_compute; exact I.
Defined.

(** * Reading a GraphQL response *)

(** X29.  For a response that is [ok] and has data, [query] with a query
    name returns the member of the data with that name when it is truthy,
    and errors that came with the data do not stop it.  A member that is
    there but is [null], [false], zero or the empty text is reported as
    missing data: the call throws instead of returning it. *)
Theorem graphql_read_named_member response members name c value :
  GraphQLResponse.ok response = true ->
  GraphQLResponse.data (GraphQLResponse.json response) = Some members ->
  GraphQLResponse.member (String c name) members = Some value ->
  GraphQLResponse.readResponse response (Some (String c name))
  = if GraphQLResponse.isTruthy value then Rest.Done value
    else
      Rest.Failed
        (Rest.FailError
           ("GraphQL response does not contain data for query "
            +:+ GraphQLResponse.quote +:+ String c name
            +:+ GraphQLResponse.quote +:+ ".")).
Proof.
  intros Hok Hdata Hmember. unfold GraphQLResponse.readResponse.
  rewrite Hok, Hdata. cbn [negb truthy]. rewrite Hmember.
  destruct (GraphQLResponse.errors _) as [[|? ?]|]; reflexivity.
Qed.

Lemma graphql_read_named_member_witness :
  GraphQLResponse.readResponse
    {| GraphQLResponse.ok := true;
       GraphQLResponse.text := EmptyString;
       GraphQLResponse.json :=
         {| GraphQLResponse.errors := Some ["not found"];
            GraphQLResponse.data :=
              Some [("article", GraphQLResponse.JNull)] |} |}
    (Some "article")
  = if GraphQLResponse.isTruthy GraphQLResponse.JNull
    then Rest.Done GraphQLResponse.JNull
    else
      Rest.Failed
        (Rest.FailError
           ("GraphQL response does not contain data for query "
            +:+ GraphQLResponse.quote +:+ "article"
            +:+ GraphQLResponse.quote +:+ ".")).
Proof.
  apply (graphql_read_named_member
           {| GraphQLResponse.ok := true;
              GraphQLResponse.text := EmptyString;
              GraphQLResponse.json :=
                {| GraphQLResponse.errors := Some ["not found"];
                   GraphQLResponse.data :=
                     Some [("article", GraphQLResponse.JNull)] |} |}
           [("article", GraphQLResponse.JNull)] "rticle" "a"
           GraphQLResponse.JNull);
    reflexivity.
Defined.

(** * Selected fields *)

Lemma selected_braces c value :
  c = "{"%char \/ c = "}"%char ->
  forall key,
    includes c key = false ->
    GraphQLSelect.keysWithout c value = true ->
    occurrences c (GraphQLSelect.selected key value)
    = GraphQLSelect.nested value.
Proof.
  intros Hc.
  induction value as [|entries IH] using GraphQLSelect.Select_induction;
    intros key Hkey Hclean.
  - cbn. apply includes_occurrences, Hkey.
  - cbn [GraphQLSelect.selected GraphQLSelect.nested].
    rewrite !occurrences_app, occurrences_concat.
    apply includes_occurrences in Hkey. rewrite Hkey.
    assert (Hnl : occurrences c GraphQLSelect.newline = 0%nat)
      by (destruct Hc as [-> | ->]; reflexivity).
    rewrite Hnl, Nat.mul_0_r, Nat.add_0_r.
    set (texts := fun entry : string * GraphQLSelect.Select =>
                    GraphQLSelect.selected (fst entry) (snd entry)).
    set (counts := fun entry : string * GraphQLSelect.Select =>
                     GraphQLSelect.nested (snd entry)).
    assert (Hsum : list_sum (map (occurrences c) (map texts entries))
                   = list_sum (map counts entries)).
    { cbn [GraphQLSelect.keysWithout] in Hclean. clear Hkey key.
      induction entries as [|[k v] entries IHl]; [reflexivity|].
      cbn [forallb fst snd] in Hclean.
      apply andb_true_iff in Hclean as [Hhead Htail].
      apply andb_true_iff in Hhead as [Hk Hv].
      apply negb_true_iff in Hk.
      apply Forall_cons in IH as [IHv IHrest]. cbn [snd] in IHv.
      cbn [map list_sum fold_right].
      fold (list_sum (map (occurrences c) (map texts entries))).
      fold (list_sum (map counts entries)).
      unfold texts at 1, counts at 1. cbn [fst snd].
      rewrite (IHv k Hk Hv), (IHl IHrest Htail). reflexivity. }
    rewrite Hsum.
    destruct Hc as [-> | ->]; cbn [occurrences Ascii.eqb]; cbn; lia.
Qed.

(** X30.  The text of a selection has balanced braces: when no key holds a
    brace, the opening and the closing braces of [getSelectedFields] are as
    many as the nested selections, one pair for each. *)
Theorem getSelectedFields_braces select :
  GraphQLSelect.keysWithout "{" (GraphQLSelect.Fields select) = true ->
  GraphQLSelect.keysWithout "}" (GraphQLSelect.Fields select) = true ->
  occurrences "{" (GraphQLSelect.getSelectedFields select)
  = occurrences "}" (GraphQLSelect.getSelectedFields select) /\
  occurrences "{" (GraphQLSelect.getSelectedFields select)
  = list_sum (map (fun entry => GraphQLSelect.nested (snd entry)) select).
Proof.
  intros Hopen Hclose.
  pose proof (selected_braces "{" (GraphQLSelect.Fields select)
                (or_introl eq_refl) EmptyString eq_refl Hopen) as Ho.
  pose proof (selected_braces "}" (GraphQLSelect.Fields select)
                (or_intror eq_refl) EmptyString eq_refl Hclose) as Hc.
  cbn [GraphQLSelect.selected GraphQLSelect.nested] in Ho, Hc.
  fold (GraphQLSelect.getSelectedFields select) in Ho, Hc.
  rewrite !occurrences_app in Ho, Hc. cbn in Ho, Hc. lia.
Qed.

Lemma getSelectedFields_braces_witness :
  occurrences "{"
    (GraphQLSelect.getSelectedFields GraphQLSelectSample.select)
  = occurrences "}"
      (GraphQLSelect.getSelectedFields GraphQLSelectSample.select) /\
  occurrences "{"
    (GraphQLSelect.getSelectedFields GraphQLSelectSample.select)
  = list_sum
      (map (fun entry => GraphQLSelect.nested (snd entry))
         GraphQLSelectSample.select).
Proof.
  apply (getSelectedFields_braces GraphQLSelectSample.select); reflexivity.
Defined.
